(** * AIEyes front end: the WAV encoding helpers of [src/App.jsx]

    A shallow embedding of [toWavBlob], [interleave], [encodeWAV] and
    [writeString], together with the parts of the JavaScript platform
    they call ([Math.min], [Math.max], typed arrays, [DataView]), of the
    [stopRecording] handler that uses them, and the properties the
    specification states about them. *)

From Stdlib Require Import ZArith QArith Qabs Qround Lia Lqa String Ascii.
From stdpp Require Import base tactics option list.

#[local] Open Scope Z_scope.

(** ** JavaScript numbers

    A JavaScript number is an IEEE 754 binary64 value.  Finite values are
    carried by the rational they denote.  Every sample the encoder sees is
    read from a [Float32Array], so it has a 24-bit significand; its clamped
    value times [0x7fff] needs at most 39 bits and the binary64 product is
    therefore exact, which is why [mul] on finite values is the rational
    product.  The two zeros are identified: the code never divides and
    [ToInt16] sends both to [0]. *)
Module JS.

Inductive number : Type :=
| NaN
| Inf (negative : bool)
| Fin (q : Q).

Definition of_Z (z : Z) : number := Fin (inject_Z z).

(** [a < b] on numbers; [false] as soon as one side is [NaN]. *)
Definition ltb (a b : number) : bool :=
  match a, b with
  | NaN, _ | _, NaN => false
  | Inf true, Inf true => false
  | Inf true, _ => true
  | _, Inf true => false
  | Inf false, _ => false
  | _, Inf false => true
  | Fin p, Fin q => negb (Qle_bool q p)
  end.

(** [Math.min(a, b)]: [NaN] if an argument is [NaN], else the smaller. *)
Definition Math_min (a b : number) : number :=
  match a, b with
  | NaN, _ | _, NaN => NaN
  | _, _ => if ltb b a then b else a
  end.

(** [Math.max(a, b)]: [NaN] if an argument is [NaN], else the larger. *)
Definition Math_max (a b : number) : number :=
  match a, b with
  | NaN, _ | _, NaN => NaN
  | _, _ => if ltb a b then b else a
  end.

Definition Qsign_neg (q : Q) : bool := negb (Qle_bool 0 q).
Definition Qis_zero (q : Q) : bool := Qeq_bool q 0.

(** [a * b]. *)
Definition mul (a b : number) : number :=
  match a, b with
  | NaN, _ | _, NaN => NaN
  | Inf s, Inf t => Inf (xorb s t)
  | Inf s, Fin q | Fin q, Inf s =>
      if Qis_zero q then NaN else Inf (xorb s (Qsign_neg q))
  | Fin p, Fin q => Fin (p * q)
  end.

(** Truncation toward zero of a finite value. *)
Definition truncate (q : Q) : Z := Z.quot (Qnum q) (Zpos (Qden q)).

(** [ToInt16]: [NaN] and the infinities go to [0]; a finite value is
    truncated, reduced modulo [2^16] and read as two's complement. *)
Definition ToInt16 (v : number) : Z :=
  match v with
  | NaN | Inf _ => 0
  | Fin q =>
      let int16bit := truncate q mod 65536 in
      if 32768 <=? int16bit then int16bit - 65536 else int16bit
  end.

(** [ToUint8], [ToUint16], [ToUint32] on an integral value. *)
Definition ToUint8 (z : Z) : Z := z mod 256.
Definition ToUint16 (z : Z) : Z := z mod 65536.
Definition ToUint32 (z : Z) : Z := z mod 4294967296.

(** Exceptions the modelled code can raise. *)
Inductive exn : Type :=
| RangeError
| IndexSizeError
| DecodeError.

Inductive result (A : Type) : Type :=
| Ok (a : A)
| Throw (e : exn).
Arguments Ok {A} a.
Arguments Throw {A} e.

Definition bind {A B : Type} (m : result A) (k : A -> result B) : result B :=
  match m with
  | Ok a => k a
  | Throw e => Throw e
  end.

End JS.

Import JS.

Notation "x <- m ;; k" := (JS.bind m (fun x => k))
  (at level 100, m at next level, right associativity).

(** ** Typed arrays

    A [Float32Array] is a list of numbers.  Reading past the end gives
    [undefined] ([None]); storing [undefined] stores [NaN]; storing past
    the end is ignored.  The only numbers the code stores were read from
    a [Float32Array], so the rounding to binary32 of a store is the
    identity. *)
Module Float32Array.

Abbreviation t := (list number).

(** [new Float32Array(length)]: zero filled. *)
Definition make (length : nat) : t := replicate length (of_Z 0).

(** [a[i]] *)
Definition get (a : t) (i : nat) : option number := a !! i.

(** [a[i] = v] *)
Definition set (a : t) (i : nat) (v : option number) : t :=
  <[ i := default NaN v ]> a.

End Float32Array.

(** ** DataView over an ArrayBuffer

    The buffer is the list of its bytes, each in [0, 256).  A write that
    does not fit between the offset and the end of the view raises
    [RangeError].  Only the little-endian forms are used by the code. *)
Module DataView.

Abbreviation t := (list Z).

(** [new DataView(new ArrayBuffer(byteLength))]: zero filled. *)
Definition make (byteLength : nat) : t := replicate byteLength 0.

Definition byteLength (view : t) : nat := length view.

Definition fits (view : t) (byteOffset size : nat) : bool :=
  (byteOffset + size <=? length view)%nat.

(** The [size] little-endian bytes of a non-negative [z]. *)
Fixpoint le_bytes (size : nat) (z : Z) : list Z :=
  match size with
  | O => []
  | S n => z mod 256 :: le_bytes n (z / 256)
  end.

(** The value of little-endian bytes. *)
Fixpoint le_value (bytes : list Z) : Z :=
  match bytes with
  | [] => 0
  | b :: rest => b + 256 * le_value rest
  end.

(** Overwrite the bytes from [byteOffset] on. *)
Fixpoint blit (view : t) (byteOffset : nat) (bytes : list Z) : t :=
  match bytes with
  | [] => view
  | b :: rest => blit (<[ byteOffset := b ]> view) (S byteOffset) rest
  end.

Definition setBytes (view : t) (byteOffset : nat) (bytes : list Z) : result t :=
  if fits view byteOffset (length bytes)
  then Ok (blit view byteOffset bytes)
  else Throw RangeError.

Definition getBytes (view : t) (byteOffset size : nat) : result (list Z) :=
  if fits view byteOffset size
  then Ok (take size (drop byteOffset view))
  else Throw RangeError.

(** [view.setUint8(byteOffset, value)] *)
Definition setUint8 (view : t) (byteOffset : nat) (value : Z) : result t :=
  setBytes view byteOffset (le_bytes 1 (ToUint8 value)).

(** [view.setUint16(byteOffset, value, true)] *)
Definition setUint16 (view : t) (byteOffset : nat) (value : Z) : result t :=
  setBytes view byteOffset (le_bytes 2 (ToUint16 value)).

(** [view.setUint32(byteOffset, value, true)] *)
Definition setUint32 (view : t) (byteOffset : nat) (value : Z) : result t :=
  setBytes view byteOffset (le_bytes 4 (ToUint32 value)).

(** [view.setInt16(byteOffset, value, true)]: the two's complement bytes
    of [ToInt16 value]. *)
Definition setInt16 (view : t) (byteOffset : nat) (value : number) : result t :=
  setBytes view byteOffset (le_bytes 2 (ToInt16 value mod 65536)).

(** [view.getUint16(byteOffset, true)] *)
Definition getUint16 (view : t) (byteOffset : nat) : result Z :=
  bytes <- getBytes view byteOffset 2 ;; Ok (le_value bytes).

(** [view.getUint32(byteOffset, true)] *)
Definition getUint32 (view : t) (byteOffset : nat) : result Z :=
  bytes <- getBytes view byteOffset 4 ;; Ok (le_value bytes).

(** [view.getInt16(byteOffset, true)] *)
Definition getInt16 (view : t) (byteOffset : nat) : result Z :=
  bytes <- getBytes view byteOffset 2 ;;
  let u := le_value bytes in
  Ok (if 32768 <=? u then u - 65536 else u).

End DataView.

(** ** The helpers of [App.jsx] *)

(** [charCodeAt] on the characters of a string. *)
Definition charCode (c : ascii) : Z := Z.of_N (N_of_ascii c).

(** [writeString(view, offset, text)]: one [setUint8] per character, at
    [offset], [offset + 1], ... *)
Fixpoint writeString (view : DataView.t) (offset : nat) (text : string)
  : result DataView.t :=
  match text with
  | EmptyString => Ok view
  | String c rest =>
      view <- DataView.setUint8 view offset (charCode c) ;;
      writeString view (S offset) rest
  end.

(** The body of the loop of [interleave] at [i], on the pair of the
    result array and [index]. *)
Definition interleave_step (L R : Float32Array.t)
  (st : Float32Array.t * nat) (i : nat) : Float32Array.t * nat :=
  let '(result, index) := st in
  let result := Float32Array.set result index (Float32Array.get L i) in
  let index := S index in
  let result := Float32Array.set result index (Float32Array.get R i) in
  let index := S index in
  (result, index).

(** The [for] loop of [interleave], started on [result] with [index = 0]. *)
Definition interleave_loop (L R result : Float32Array.t) : Float32Array.t * nat :=
  foldl (interleave_step L R) (result, O) (seq 0 (length L)).

(** [interleave(L, R)] *)
Definition interleave (L R : Float32Array.t) : Float32Array.t :=
  let length := (length L + length R)%nat in
  let result := Float32Array.make length in
  fst (interleave_loop L R result).

(** The sample loop of [encodeWAV], from [offset] on. *)
Fixpoint writeSamples (view : DataView.t) (offset : nat) (samples : list number)
  : result DataView.t :=
  match samples with
  | [] => Ok view
  | sample :: rest =>
      let s := Math_max (of_Z (-1)) (Math_min (of_Z 1) sample) in
      view <- DataView.setInt16 view offset (mul s (of_Z 0x7fff)) ;;
      writeSamples view (offset + 2) rest
  end.

(** [encodeWAV(samples, numChannels, sampleRate, bitDepth)].  The
    arguments other than the samples are integers ([numberOfChannels] and
    [sampleRate] of an [AudioBuffer], and the constant 16), and [bitDepth]
    is a multiple of 8, so that [bitDepth / 8] is the integer quotient.
    Allocation is not bounded by the memory of the machine. *)
Definition encodeWAV (samples : Float32Array.t)
  (numChannels sampleRate bitDepth : Z) : result DataView.t :=
  let bytesPerSample := bitDepth / 8 in
  let blockAlign := numChannels * bytesPerSample in
  let length := Z.of_nat (List.length samples) in
  let view := DataView.make (Z.to_nat (44 + length * bytesPerSample)) in
  view <- writeString view 0 "RIFF" ;;
  view <- DataView.setUint32 view 4 (36 + length * bytesPerSample) ;;
  view <- writeString view 8 "WAVE" ;;
  view <- writeString view 12 "fmt " ;;
  view <- DataView.setUint32 view 16 16 ;;
  view <- DataView.setUint16 view 20 1 ;;
  view <- DataView.setUint16 view 22 numChannels ;;
  view <- DataView.setUint32 view 24 sampleRate ;;
  view <- DataView.setUint32 view 28 (sampleRate * blockAlign) ;;
  view <- DataView.setUint16 view 32 blockAlign ;;
  view <- DataView.setUint16 view 34 bitDepth ;;
  view <- writeString view 36 "data" ;;
  view <- DataView.setUint32 view 40 (length * bytesPerSample) ;;
  writeSamples view 44 samples.

(** The call of [encodeWAV] made by [toWavBlob], with [bitDepth = 16]:
    the specification's [quantizeAndFrame]. *)
Definition quantizeAndFrame (samples : Float32Array.t)
  (channels sampleRate : Z) : result DataView.t :=
  encodeWAV samples channels sampleRate 16.

(** ** The bytes [encodeWAV] produces *)

(** What [writeString] stores for [text]. *)
Definition stringBytes (text : string) : list Z :=
  flat_map (fun c => DataView.le_bytes 1 (ToUint8 (charCode c)))
           (list_ascii_of_string text).

(** The 44 bytes the thirteen header writes leave behind. *)
Definition headerBytes (length numChannels sampleRate bitDepth : Z) : list Z :=
  let bytesPerSample := bitDepth / 8 in
  let blockAlign := numChannels * bytesPerSample in
  stringBytes "RIFF"
  ++ DataView.le_bytes 4 (ToUint32 (36 + length * bytesPerSample))
  ++ stringBytes "WAVE"
  ++ stringBytes "fmt "
  ++ DataView.le_bytes 4 (ToUint32 16)
  ++ DataView.le_bytes 2 (ToUint16 1)
  ++ DataView.le_bytes 2 (ToUint16 numChannels)
  ++ DataView.le_bytes 4 (ToUint32 sampleRate)
  ++ DataView.le_bytes 4 (ToUint32 (sampleRate * blockAlign))
  ++ DataView.le_bytes 2 (ToUint16 blockAlign)
  ++ DataView.le_bytes 2 (ToUint16 bitDepth)
  ++ stringBytes "data"
  ++ DataView.le_bytes 4 (ToUint32 (length * bytesPerSample)).

(** The 16-bit integer the sample loop stores for one sample. *)
Definition sampleInt16 (sample : number) : Z :=
  ToInt16 (mul (Math_max (of_Z (-1)) (Math_min (of_Z 1) sample)) (of_Z 0x7fff)).

(** The two bytes the sample loop stores for one sample. *)
Definition sampleBytes (sample : number) : list Z :=
  DataView.le_bytes 2 (sampleInt16 sample mod 65536).

(** ** The decoded audio and [toWavBlob] *)

(** An [AudioBuffer]: its sample rate and one sample array per channel. *)
Record AudioBuffer : Type := {
  sampleRate : Z;
  channels : list Float32Array.t
}.

Definition numberOfChannels (audioBuffer : AudioBuffer) : Z :=
  Z.of_nat (length (channels audioBuffer)).

(** [audioBuffer.getChannelData(channel)] *)
Definition getChannelData (audioBuffer : AudioBuffer) (channel : nat)
  : result Float32Array.t :=
  match channels audioBuffer !! channel with
  | Some data => Ok data
  | None => Throw IndexSizeError
  end.

Section ToWavBlob.

(** The platform's decoder on non-empty content: [None] when the bytes
    are not a valid compressed audio container. *)
Variable codec : list Z -> option AudioBuffer.

(** Modelled from the spec: [audioCtx.decodeAudioData], the platform's
    decoder, is not part of the repository.  Following the description of
    [decode], it fails with [DecodeError] if the byte content is empty or
    is not a valid compressed audio container. *)
Definition decodeAudioData (arrayBuffer : list Z) : result AudioBuffer :=
  match arrayBuffer with
  | [] => Throw DecodeError
  | _ :: _ =>
      match codec arrayBuffer with
      | Some audioBuffer => Ok audioBuffer
      | None => Throw DecodeError
      end
  end.

(** [toWavBlob(audioChunks)]: a [Blob] is the concatenation of its
    parts. *)
Definition toWavBlob (audioChunks : list (list Z)) : result (list Z) :=
  let audioBlob := concat audioChunks in
  let arrayBuffer := audioBlob in
  audioBuffer <- decodeAudioData arrayBuffer ;;
  let numChannels := numberOfChannels audioBuffer in
  let sampleRate := sampleRate audioBuffer in
  let bitDepth := 16 in
  samples <-
    (if numChannels =? 2
     then L <- getChannelData audioBuffer 0 ;;
          R <- getChannelData audioBuffer 1 ;;
          Ok (interleave L R)
     else getChannelData audioBuffer 0) ;;
  wavData <- encodeWAV samples numChannels sampleRate bitDepth ;;
  Ok wavData.

End ToWavBlob.

(** ** Notions of the specification *)

(** A sample hard-clamped to [-1.0, 1.0]; [NaN] is not a sample value. *)
Definition hardClamp (s : number) : option Q :=
  match s with
  | NaN => None
  | Inf true => Some (-1)%Q
  | Inf false => Some 1%Q
  | Fin q =>
      Some (if Qle_bool q (-1) then (-1)%Q
            else if Qle_bool 1 q then 1%Q
            else q)
  end.

(** The ASCII codes of a string. *)
Definition asciiCodes (text : string) : list Z :=
  map (fun c => Z.of_nat (nat_of_ascii c)) (list_ascii_of_string text).

(** What a PCM reader makes of a stored 16-bit value. *)
Definition pcmValue (v : Z) : Q := (inject_Z v / 32767)%Q.

(** ** The recording session of [App]: [stopRecording] and its handler

    The handler installed on [onstop] is sequential code over awaited
    platform calls.  Each call is given by its outcome: [None] when the
    promise rejects.  The component's state is passed explicitly, with the
    calls made to the outside recorded in order.  One session is followed
    in isolation; the canvas always yields its JPEG blob. *)
Module Session.

(** A JavaScript value, as far as [!value] and the request body go. *)
Inductive value : Type :=
| VUndefined
| VNull
| VBool (b : bool)
| VNumber (n : number)
| VString (s : string)
| VObject.

(** [ToBoolean]: [!v] is [negb (truthy v)]. *)
Definition truthy (v : value) : bool :=
  match v with
  | VUndefined | VNull => false
  | VBool b => b
  | VNumber NaN => false
  | VNumber (Inf _) => true
  | VNumber (Fin q) => negb (Qeq_bool q 0)
  | VString EmptyString => false
  | VString (String _ _) => true
  | VObject => true
  end.

(** What [await backend.json()] gives, as far as the handler reads it:
    [null], on which [.text] throws, or a value with its [text] property
    ([undefined] when it has none). *)
Inductive parsed : Type :=
| JsonNull
| JsonWith (text : value).

(** A [Response]: its [ok] flag and what reading its body gives. *)
Record Response : Type := {
  ok : bool;
  json : option parsed;
  text : option string;
  arrayBuffer : option (list Z)
}.

Inductive error : Type :=
| EncoderError (e : exn)
| TypeError
| FetchError
| BodyError.

(** The outside of a session: the audio decoder, the frame of the canvas
    and the two remote services as functions of what is sent to them. *)
Record environment : Type := {
  codec : list Z -> option AudioBuffer;
  imageBlob : list Z;
  analyze : list Z -> list Z -> option Response;
  speech : value -> option Response
}.

(** The calls the handler makes to the outside. *)
Inductive action : Type :=
| ConsoleLog
| ConsoleError
| FetchAnalyze (image audio : list Z)
| FetchSpeech (input : value)
| PlayAudio (arrayBuffer : list Z).

(** The state of the component, whether the promise returned by
    [stopRecording] is resolved, and the calls made so far. *)
Record state : Type := {
  isRecording : bool;
  loading : bool;
  resolved : bool;
  trace : list action
}.

(** How a piece of a function body ends: by falling through, by
    [return;] or by throwing. *)
Inductive completion (A : Type) : Type :=
| Normal (a : A)
| Return
| Throws (e : error).
Arguments Normal {A} a.
Arguments Return {A}.
Arguments Throws {A} e.

Definition M (A : Type) : Type := state -> completion A * state.

Definition ret {A : Type} (a : A) : M A := fun st => (Normal a, st).

Definition bind {A B : Type} (m : M A) (k : A -> M B) : M B :=
  fun st =>
    match m st with
    | (Normal a, st') => k a st'
    | (Return, st') => (Return, st')
    | (Throws e, st') => (Throws e, st')
    end.

Definition throw {A : Type} (e : error) : M A := fun st => (Throws e, st).

Definition return_ {A : Type} : M A := fun st => (Return, st).

(** [try { body } catch (err) { handler }]: a [return;] in the body leaves
    the function. *)
Definition try_catch {A : Type} (body : M A) (handler : error -> M A) : M A :=
  fun st =>
    match body st with
    | (Throws e, st') => handler e st'
    | other => other
    end.

(** [await promise] *)
Definition await {A : Type} (e : error) (promise : option A) : M A :=
  match promise with
  | Some a => ret a
  | None => throw e
  end.

Definition of_result {A : Type} (r : result A) : M A :=
  match r with
  | Ok a => ret a
  | Throw e => throw (EncoderError e)
  end.

Definition emit (a : action) : M unit :=
  fun st =>
    (Normal tt,
     {| isRecording := isRecording st; loading := loading st;
        resolved := resolved st; trace := trace st ++ [a] |}).

Definition setIsRecording (b : bool) : M unit :=
  fun st =>
    (Normal tt,
     {| isRecording := b; loading := loading st;
        resolved := resolved st; trace := trace st |}).

Definition setLoading (b : bool) : M unit :=
  fun st =>
    (Normal tt,
     {| isRecording := isRecording st; loading := b;
        resolved := resolved st; trace := trace st |}).

Definition resolve : M unit :=
  fun st =>
    (Normal tt,
     {| isRecording := isRecording st; loading := loading st;
        resolved := true; trace := trace st |}).

End Session.

Notation "x <-- m ;; k" := (Session.bind m (fun x => k))
  (at level 100, m at next level, right associativity).

(** The [onstop] handler of [stopRecording]. *)
Definition onstop (env : Session.environment) (audioChunks : list (list Z))
  : Session.M unit :=
  wavBlob <-- Session.of_result (toWavBlob (Session.codec env) audioChunks) ;;
  let imageBlob := Session.imageBlob env in
  _ <-- Session.setLoading true ;;
  _ <-- Session.try_catch
      (_ <-- Session.emit (Session.FetchAnalyze imageBlob wavBlob) ;;
       backend <-- Session.await Session.FetchError
                     (Session.analyze env imageBlob wavBlob) ;;
       backendJson <-- Session.await Session.BodyError (Session.json backend) ;;
       _ <-- Session.emit Session.ConsoleLog ;;
       textResponse <--
         match backendJson with
         | Session.JsonNull => Session.throw Session.TypeError
         | Session.JsonWith text => Session.ret text
         end ;;
       if negb (Session.truthy textResponse)
       then _ <-- Session.emit Session.ConsoleError ;; Session.return_
       else
         _ <-- Session.emit Session.ConsoleLog ;;
         _ <-- Session.emit (Session.FetchSpeech textResponse) ;;
         groqRes <-- Session.await Session.FetchError
                       (Session.speech env textResponse) ;;
         if negb (Session.ok groqRes)
         then
           body <-- Session.await Session.BodyError (Session.text groqRes) ;;
           _ <-- Session.emit Session.ConsoleError ;;
           Session.return_
         else
           audioBuffer <-- Session.await Session.BodyError
                             (Session.arrayBuffer groqRes) ;;
           Session.emit (Session.PlayAudio audioBuffer))
      (fun err => Session.emit Session.ConsoleError) ;;
  _ <-- Session.setLoading false ;;
  Session.resolve.

(** [stopRecording], run together with the handler it installs;
    [audioChunks] is the content of [audioChunksRef.current] when the
    recorder's [stop] event fires. *)
Definition stopRecording (env : Session.environment)
  (audioChunks : list (list Z)) : Session.M unit :=
  fun st =>
    if negb (Session.isRecording st)
    then (Session.Return, st)
    else (_ <-- Session.setIsRecording false ;; onstop env audioChunks) st.

(** ** A session to run the handler on *)
Module SessionExample.

(** One second of nothing would do; one mono sample is enough. *)
Definition decoded : AudioBuffer :=
  {| sampleRate := 48000; channels := [[Fin (1 # 2)]] |}.

(** The component while the button is held. *)
Definition recording : Session.state :=
  {| Session.isRecording := true; Session.loading := false;
     Session.resolved := false; Session.trace := [] |}.

Definition answer (text : Session.value) : Session.Response :=
  {| Session.ok := true; Session.json := Some (Session.JsonWith text);
     Session.text := None; Session.arrayBuffer := None |}.

Definition speech_answer (ok : bool) : Session.Response :=
  {| Session.ok := ok; Session.json := None;
     Session.text := Some "quota"%string; Session.arrayBuffer := Some [82; 73] |}.

(** An environment whose analysis answers [text] and whose speech service
    answers with the status [ok]. *)
Definition env (text : Session.value) (ok : bool) : Session.environment :=
  {| Session.codec := fun _ => Some decoded;
     Session.imageBlob := [255; 216];
     Session.analyze := fun _ _ => Some (answer text);
     Session.speech := fun _ => Some (speech_answer ok) |}.

(** The WAV file of [decoded]. *)
Definition wav : list Z :=
  [82; 73; 70; 70; 38; 0; 0; 0; 87; 65; 86; 69; 102; 109; 116; 32;
   16; 0; 0; 0; 1; 0; 1; 0; 128; 187; 0; 0; 0; 119; 1; 0; 2; 0; 16; 0;
   100; 97; 116; 97; 2; 0; 0; 0; 255; 63].

(** The component left in "Processing..." after an early return on a
    missing text. *)
Definition stuck : Session.state :=
  {| Session.isRecording := false; Session.loading := true;
     Session.resolved := false;
     Session.trace := [Session.FetchAnalyze [255; 216] wav;
                       Session.ConsoleLog; Session.ConsoleError] |}.

(** The component after a complete exchange. *)
Definition played : Session.state :=
  {| Session.isRecording := false; Session.loading := false;
     Session.resolved := true;
     Session.trace := [Session.FetchAnalyze [255; 216] wav;
                       Session.ConsoleLog; Session.ConsoleLog;
                       Session.FetchSpeech (Session.VString "a cat");
                       Session.PlayAudio [82; 73]] |}.

End SessionExample.

(** * Properties *)

(** ** The encoder on small inputs *)

Example encode_four_samples :
  quantizeAndFrame [Fin (3 # 2); of_Z 1; of_Z (-2); Fin (1 # 3)] 1 48000
  = Ok [82; 73; 70; 70;  44; 0; 0; 0;  87; 65; 86; 69;
        102; 109; 116; 32;  16; 0; 0; 0;  1; 0;  1; 0;
        128; 187; 0; 0;  0; 119; 1; 0;  2; 0;  16; 0;
        100; 97; 116; 97;  8; 0; 0; 0;
        255; 127;  255; 127;  1; 128;  170; 42].
Proof. vm_compute. reflexivity. Qed.

(** [NaN] passes through [Math.min] and [Math.max] and is stored as [0]. *)
Example nan_sample_is_stored_as_zero :
  Math_max (of_Z (-1)) (Math_min (of_Z 1) NaN) = NaN /\ sampleInt16 NaN = 0.
Proof. split; reflexivity. Qed.

(** A right channel shorter than the left one is read as [undefined]. *)
Example interleave_short_right :
  interleave [of_Z 1; of_Z 2; of_Z 3] [] = [of_Z 1; NaN; of_Z 2].
Proof. reflexivity. Qed.

Example interleave_long_right :
  interleave [of_Z 1] [of_Z 5; of_Z 6] = [of_Z 1; of_Z 5; of_Z 0].
Proof. reflexivity. Qed.

(** At a bit depth of 8 the sample loop runs past the buffer. *)
Example encodeWAV_depth_8_throws :
  encodeWAV [of_Z 0] 1 48000 8 = Throw RangeError.
Proof. vm_compute. reflexivity. Qed.

(** ** Little-endian bytes *)

Lemma le_bytes_length (size : nat) (z : Z) :
  length (DataView.le_bytes size z) = size.
Proof.
  revert z. induction size as [|size IH]; intros z; simpl; [reflexivity|].
  now rewrite IH.
Qed.

Lemma le_value_le_bytes (size : nat) (z : Z) :
  DataView.le_value (DataView.le_bytes size z) = z mod 256 ^ Z.of_nat size.
Proof.
  revert z. induction size as [|size IH]; intros z.
  - simpl. now rewrite Z.mod_1_r.
  - cbn [DataView.le_bytes DataView.le_value]. rewrite IH.
    rewrite Nat2Z.inj_succ, Z.pow_succ_r by lia.
    rewrite Z.rem_mul_r by lia. reflexivity.
Qed.

(** ** Writes and reads of a DataView *)

Lemma blit_middle (pre mid post bytes : list Z) :
  length mid = length bytes ->
  DataView.blit (pre ++ mid ++ post) (length pre) bytes = pre ++ bytes ++ post.
Proof.
  revert pre mid. induction bytes as [|b bytes IH]; intros pre mid Hlen.
  - destruct mid; [reflexivity | discriminate].
  - destruct mid as [|m mid]; [discriminate|]. injection Hlen as Hlen.
    cbn [DataView.blit].
    replace (<[length pre:=b]> (pre ++ (m :: mid) ++ post))
      with ((pre ++ [b]) ++ mid ++ post).
    + replace (S (length pre)) with (length (pre ++ [b])).
      * rewrite (IH (pre ++ [b]) mid Hlen). now rewrite <- app_assoc.
      * rewrite length_app. simpl. lia.
    + rewrite insert_app_r_alt by lia. rewrite Nat.sub_diag.
      now rewrite <- app_assoc.
Qed.

Lemma setBytes_middle (pre mid post bytes : list Z) :
  length mid = length bytes ->
  DataView.setBytes (pre ++ mid ++ post) (length pre) bytes
  = Ok (pre ++ bytes ++ post).
Proof.
  intros Hlen. unfold DataView.setBytes, DataView.fits.
  rewrite blit_middle by assumption.
  destruct (Nat.leb_spec (length pre + length bytes) (length (pre ++ mid ++ post)))
    as [_|Hlt]; [reflexivity|].
  rewrite !length_app in Hlt. lia.
Qed.

Lemma getBytes_middle (pre bytes post : list Z) :
  DataView.getBytes (pre ++ bytes ++ post) (length pre) (length bytes) = Ok bytes.
Proof.
  unfold DataView.getBytes, DataView.fits.
  destruct (Nat.leb_spec (length pre + length bytes) (length (pre ++ bytes ++ post)))
    as [_|Hlt].
  - rewrite drop_app_length, take_app_length. reflexivity.
  - rewrite !length_app in Hlt. lia.
Qed.

Lemma headerBytes_length (n ch rate depth : Z) :
  length (headerBytes n ch rate depth) = 44%nat.
Proof. reflexivity. Qed.

Lemma sampleBytes_length (s : number) : length (sampleBytes s) = 2%nat.
Proof. reflexivity. Qed.

Lemma payload_length (samples : list number) :
  length (flat_map sampleBytes samples) = (2 * length samples)%nat.
Proof.
  induction samples as [|s samples IH]; [reflexivity|].
  cbn [flat_map]. rewrite length_app, IH, sampleBytes_length. simpl. lia.
Qed.

Lemma writeSamples_layout (samples : list number) (pre : list Z) :
  writeSamples (pre ++ replicate (2 * length samples) 0) (length pre) samples
  = Ok (pre ++ flat_map sampleBytes samples).
Proof.
  revert pre. induction samples as [|s samples IH]; intros pre.
  - simpl. reflexivity.
  - cbn [writeSamples flat_map length].
    replace (2 * S (length samples))%nat with (S (S (2 * length samples))) by lia.
    cbn [replicate]. unfold DataView.setInt16.
    fold (sampleInt16 s). fold (sampleBytes s).
    rewrite (setBytes_middle pre [0; 0] (replicate (2 * length samples) 0))
      by reflexivity.
    cbn [JS.bind].
    replace (length pre + 2)%nat with (length (pre ++ sampleBytes s))
      by (rewrite length_app, sampleBytes_length; reflexivity).
    rewrite app_assoc, IH. now rewrite <- app_assoc.
Qed.

Lemma make_buffer (n : nat) :
  DataView.make (Z.to_nat (44 + Z.of_nat n * (16 / 8)))
  = replicate 44 0 ++ replicate (2 * n) 0.
Proof.
  unfold DataView.make. change (16 / 8) with 2.
  replace (Z.to_nat (44 + Z.of_nat n * 2)) with (44 + 2 * n)%nat by lia.
  apply replicate_add.
Qed.

(** [encodeWAV] at bit depth 16 never throws, and its result is the header
    followed by two bytes per sample. *)
Lemma quantizeAndFrame_layout (samples : list number) (ch rate : Z) :
  quantizeAndFrame samples ch rate
  = Ok (headerBytes (Z.of_nat (length samples)) ch rate 16
        ++ flat_map sampleBytes samples).
Proof.
  unfold quantizeAndFrame, encodeWAV.
  rewrite make_buffer. cbn.
  exact (writeSamples_layout samples
           (headerBytes (Z.of_nat (length samples)) ch rate 16)).
Qed.

(** ** Sixteen-bit values *)

Lemma ToInt16_range (v : number) : -32768 <= ToInt16 v <= 32767.
Proof.
  destruct v as [| |q]; simpl; try lia.
  pose proof (Z.mod_pos_bound (truncate q) 65536 ltac:(lia)) as Hb.
  destruct (Z.leb_spec 32768 (truncate q mod 65536)); lia.
Qed.

Lemma int16_read_back (z : Z) :
  -32768 <= z <= 32767 ->
  (if 32768 <=? z mod 65536 then z mod 65536 - 65536 else z mod 65536) = z.
Proof.
  intros Hz.
  pose proof (Z.mod_pos_bound z 65536 ltac:(lia)) as Hb.
  pose proof (Z.div_mod z 65536 ltac:(lia)) as Hdm.
  destruct (Z.leb_spec 32768 (z mod 65536)); lia.
Qed.

Lemma ToInt16_small (q : Q) :
  -32768 <= truncate q <= 32767 -> ToInt16 (Fin q) = truncate q.
Proof. intros Hq. cbn [ToInt16]. now apply int16_read_back. Qed.

(** ** Clamping and scaling *)

Lemma clamp_hardClamp (s : number) (c : Q) :
  hardClamp s = Some c ->
  Math_max (of_Z (-1)) (Math_min (of_Z 1) s) = Fin c /\ (-1 <= c <= 1)%Q.
Proof.
  destruct s as [|[|]|q]; cbn [hardClamp]; intros Hc;
    try discriminate; injection Hc as <-.
  - split; [reflexivity | split; discriminate].
  - split; [reflexivity | split; discriminate].
  - unfold Math_min, Math_max, of_Z, ltb.
    destruct (Qle_bool q (-1)) eqn:Hlo.
    + assert (Hq : (q <= -1)%Q) by now apply Qle_bool_iff.
      destruct (Qle_bool (inject_Z 1) q) eqn:Hhi.
      * apply Qle_bool_iff in Hhi.
        exfalso. apply (Qle_not_lt _ _ (Qle_trans _ _ _ Hhi Hq)). reflexivity.
      * cbn [negb]. change (inject_Z (-1)) with (-1)%Q. rewrite Hlo. cbn [negb].
        split; [reflexivity | split; discriminate].
    + change (inject_Z 1) with 1%Q.
      destruct (Qle_bool 1 q) eqn:Hhi; cbn [negb].
      * split; [reflexivity | split; discriminate].
      * change (inject_Z (-1)) with (-1)%Q. rewrite Hlo. cbn [negb].
        split; [reflexivity|]. split.
        -- apply Qnot_lt_le. intros Hlt. apply Qlt_le_weak in Hlt.
           apply Qle_bool_iff in Hlt. congruence.
        -- apply Qnot_lt_le. intros Hlt. apply Qlt_le_weak in Hlt.
           apply Qle_bool_iff in Hlt. congruence.
Qed.

Lemma truncate_scaled (c : Q) :
  (-1 <= c <= 1)%Q ->
  -32767 <= truncate (c * inject_Z 32767) <= 32767
  /\ (Qabs (pcmValue (truncate (c * inject_Z 32767)) - c) < 1 / 32767)%Q.
Proof.
  destruct c as [n d]. intros [Hlo Hhi].
  unfold Qle in Hlo, Hhi. cbn in Hlo, Hhi.
  unfold truncate. cbn [Qmult Qnum Qden inject_Z]. rewrite Pos.mul_1_r.
  pose proof (Z.quot_rem' (n * 32767) (Z.pos d)) as Hqr.
  pose proof (Z.rem_bound_abs (n * 32767) (Z.pos d) ltac:(lia)) as Hr.
  set (t := Z.quot (n * 32767) (Z.pos d)) in *.
  set (r := Z.rem (n * 32767) (Z.pos d)) in *.
  assert (Hd : 0 < Z.pos d) by lia.
  assert (Ht : -32767 <= t <= 32767) by nia.
  split; [exact Ht|].
  apply Qabs_Qlt_condition.
  unfold pcmValue, Qlt, Qminus, Qplus, Qopp, Qdiv, Qmult, Qinv, inject_Z.
  cbn. split; nia.
Qed.

(** ** Reading the container back *)

Lemma getBytes_payload (samples : list number) (pre : list Z) (i : nat) (s : number) :
  samples !! i = Some s ->
  DataView.getBytes (pre ++ flat_map sampleBytes samples) (length pre + 2 * i) 2
  = Ok (sampleBytes s).
Proof.
  revert pre i. induction samples as [|s0 samples IH]; intros pre i Hi.
  - discriminate.
  - cbn [flat_map]. destruct i as [|i].
    + injection Hi as ->. rewrite Nat.mul_0_r, Nat.add_0_r.
      exact (getBytes_middle pre (sampleBytes s) (flat_map sampleBytes samples)).
    + cbn in Hi. rewrite app_assoc.
      replace (length pre + 2 * S i)%nat
        with (length (pre ++ sampleBytes s0) + 2 * i)%nat
        by (rewrite length_app, sampleBytes_length; lia).
      now apply IH.
Qed.

Lemma getInt16_payload (samples : list number) (pre : list Z) (i : nat) (s : number) :
  samples !! i = Some s ->
  DataView.getInt16 (pre ++ flat_map sampleBytes samples) (length pre + 2 * i)
  = Ok (sampleInt16 s).
Proof.
  intros Hi. unfold DataView.getInt16.
  rewrite (getBytes_payload samples pre i s Hi). cbn [JS.bind].
  unfold sampleBytes. rewrite le_value_le_bytes.
  change (256 ^ Z.of_nat 2) with 65536. rewrite Z.mod_mod by lia.
  f_equal. apply int16_read_back. apply ToInt16_range.
Qed.

Lemma getInt16_sample (samples : list number) (ch rate : Z) (i : nat) (s : number) :
  samples !! i = Some s ->
  exists view,
    quantizeAndFrame samples ch rate = Ok view
    /\ DataView.getInt16 view (44 + 2 * i) = Ok (sampleInt16 s).
Proof.
  intros Hi. eexists. split; [apply quantizeAndFrame_layout|].
  exact (getInt16_payload samples _ i s Hi).
Qed.

Lemma sampleInt16_clamped (s : number) (c : Q) :
  hardClamp s = Some c ->
  sampleInt16 s = truncate (c * inject_Z 32767)
  /\ -32767 <= sampleInt16 s <= 32767.
Proof.
  intros Hc. destruct (clamp_hardClamp s c Hc) as [Hcode Hrange].
  destruct (truncate_scaled c Hrange) as [Hb _].
  unfold sampleInt16. rewrite Hcode. unfold of_Z. cbn [mul].
  rewrite ToInt16_small by lia. split; [reflexivity | exact Hb].
Qed.

(** ** The header fields *)

Lemma uint32_field (z : Z) :
  DataView.le_value (DataView.le_bytes 4 (ToUint32 z)) = z mod 4294967296.
Proof.
  rewrite le_value_le_bytes. change (256 ^ Z.of_nat 4) with 4294967296.
  unfold ToUint32. apply Z.mod_mod. lia.
Qed.

Lemma uint16_field (z : Z) :
  DataView.le_value (DataView.le_bytes 2 (ToUint16 z)) = z mod 65536.
Proof.
  rewrite le_value_le_bytes. change (256 ^ Z.of_nat 2) with 65536.
  unfold ToUint16. apply Z.mod_mod. lia.
Qed.

(** Every field of the header read back; the integer fields hold their
    value modulo the width of the field. *)
Lemma header_fields (n ch rate : Z) (payload : list Z) :
  let view := headerBytes n ch rate 16 ++ payload in
  DataView.getBytes view 0 4 = Ok (asciiCodes "RIFF")
  /\ DataView.getUint32 view 4 = Ok ((36 + n * 2) mod 4294967296)
  /\ DataView.getBytes view 8 4 = Ok (asciiCodes "WAVE")
  /\ DataView.getBytes view 12 4 = Ok (asciiCodes "fmt ")
  /\ DataView.getUint32 view 16 = Ok 16
  /\ DataView.getUint16 view 20 = Ok 1
  /\ DataView.getUint16 view 22 = Ok (ch mod 65536)
  /\ DataView.getUint32 view 24 = Ok (rate mod 4294967296)
  /\ DataView.getUint32 view 28 = Ok ((rate * (ch * 2)) mod 4294967296)
  /\ DataView.getUint16 view 32 = Ok ((ch * 2) mod 65536)
  /\ DataView.getUint16 view 34 = Ok 16
  /\ DataView.getBytes view 36 4 = Ok (asciiCodes "data")
  /\ DataView.getUint32 view 40 = Ok ((n * 2) mod 4294967296).
Proof.
  intros view.
  repeat apply conj.
  - reflexivity.
  - transitivity (@Ok Z (DataView.le_value (DataView.le_bytes 4 (ToUint32 (36 + n * 2))))).
    + reflexivity.
    + now rewrite uint32_field.
  - reflexivity.
  - reflexivity.
  - reflexivity.
  - reflexivity.
  - transitivity (@Ok Z (DataView.le_value (DataView.le_bytes 2 (ToUint16 ch)))).
    + reflexivity.
    + now rewrite uint16_field.
  - transitivity (@Ok Z (DataView.le_value (DataView.le_bytes 4 (ToUint32 rate)))).
    + reflexivity.
    + now rewrite uint32_field.
  - transitivity (@Ok Z (DataView.le_value (DataView.le_bytes 4 (ToUint32 (rate * (ch * 2)))))).
    + reflexivity.
    + now rewrite uint32_field.
  - transitivity (@Ok Z (DataView.le_value (DataView.le_bytes 2 (ToUint16 (ch * 2))))).
    + reflexivity.
    + now rewrite uint16_field.
  - reflexivity.
  - reflexivity.
  - transitivity (@Ok Z (DataView.le_value (DataView.le_bytes 4 (ToUint32 (n * 2))))).
    + reflexivity.
    + now rewrite uint32_field.
Qed.

Lemma header_bytes_are_bytes (n ch rate : Z) :
  Forall (fun b => 0 <= b < 256) (headerBytes n ch rate 16).
Proof.
  unfold headerBytes. cbn.
  repeat (apply Forall_cons; split; [apply Z.mod_pos_bound; lia|]).
  apply Forall_nil_2.
Qed.

Lemma take_header (n ch rate : Z) (payload : list Z) :
  take 44 (headerBytes n ch rate 16 ++ payload) = headerBytes n ch rate 16.
Proof. apply take_app_length'. reflexivity. Qed.

Lemma quantizeAndFrame_byteLength (samples : list number) (ch rate : Z) :
  exists view,
    quantizeAndFrame samples ch rate = Ok view
    /\ DataView.byteLength view = (44 + length samples * 2)%nat.
Proof.
  eexists. split; [apply quantizeAndFrame_layout|].
  unfold DataView.byteLength.
  rewrite length_app, headerBytes_length, payload_length. lia.
Qed.

(** The two size fields of the header, as the code leaves them. *)
Lemma size_fields_mod (samples : list number) (ch rate : Z) :
  exists view,
    quantizeAndFrame samples ch rate = Ok view
    /\ Z.of_nat (DataView.byteLength view) = 44 + Z.of_nat (length samples) * 2
    /\ DataView.getUint32 view 4
       = Ok ((36 + Z.of_nat (length samples) * 2) mod 4294967296)
    /\ DataView.getUint32 view 40
       = Ok ((Z.of_nat (length samples) * 2) mod 4294967296).
Proof.
  eexists. split; [apply quantizeAndFrame_layout|].
  pose proof (header_fields (Z.of_nat (length samples)) ch rate
                (flat_map sampleBytes samples)) as H.
  cbv zeta in H.
  repeat split; try apply H.
  unfold DataView.byteLength.
  rewrite length_app, headerBytes_length, payload_length. lia.
Qed.

(** ** The claims about [quantizeAndFrame] *)

(** C1 as stated fails: the sample [-2.0] is stored as [-32767], the value
    stored for [-1.0], and not as [-32768]. *)
Lemma minus_two_is_not_min_int16 :
  exists view,
    quantizeAndFrame [of_Z (-2); of_Z (-1)] 1 48000 = Ok view
    /\ DataView.getInt16 view 44 = Ok (-32767)
    /\ DataView.getInt16 view 46 = Ok (-32767)
    /\ DataView.getInt16 view 44 <> Ok (-32768).
Proof.
  eexists. split; [vm_compute; reflexivity|].
  repeat apply conj; try (vm_compute; reflexivity).
  vm_compute. discriminate.
Qed.

(** C1, amended: every sample that is a number is hard-clamped to
    [-1.0, 1.0], scaled by 32767 and truncated toward zero, and the result,
    which lies in [-32767, 32767], is what a signed 16-bit little-endian
    read at offset [44 + 2i] returns.  In particular 1.5 and 1.0 are both
    stored as 32767, and -2.0 and -1.0 are both stored as -32767. *)
Theorem samples_clamped_scaled_truncated :
  (forall (samples : list number) (ch rate : Z) (i : nat) (s : number) (c : Q),
      samples !! i = Some s ->
      hardClamp s = Some c ->
      exists view,
        quantizeAndFrame samples ch rate = Ok view
        /\ DataView.getInt16 view (44 + 2 * i)
           = Ok (truncate (c * inject_Z 32767))
        /\ -32767 <= truncate (c * inject_Z 32767) <= 32767)
  /\ (exists view,
        quantizeAndFrame [Fin (3 # 2); of_Z 1; of_Z (-2); of_Z (-1)] 1 48000
        = Ok view
        /\ DataView.getInt16 view 44 = Ok 32767
        /\ DataView.getInt16 view 46 = Ok 32767
        /\ DataView.getInt16 view 48 = Ok (-32767)
        /\ DataView.getInt16 view 50 = Ok (-32767)).
Proof.
  split.
  - intros samples ch rate i s c Hi Hc.
    destruct (getInt16_sample samples ch rate i s Hi) as (view & Hview & Hget).
    destruct (sampleInt16_clamped s c Hc) as [Heq Hrange].
    exists view. rewrite <- Heq. auto.
  - eexists. split; [vm_compute; reflexivity|].
    repeat apply conj; vm_compute; reflexivity.
Qed.

Lemma samples_clamped_scaled_truncated_witness :
  exists view,
    quantizeAndFrame [Fin (3 # 2)] 2 44100 = Ok view
    /\ DataView.getInt16 view (44 + 2 * 0) = Ok (truncate (1 * inject_Z 32767))
    /\ -32767 <= truncate (1 * inject_Z 32767) <= 32767.
Proof.
  apply (proj1 samples_clamped_scaled_truncated
           [Fin (3 # 2)] 2 44100 O (Fin (3 # 2)) 1%Q); reflexivity.
Defined.

(** C3 as stated fails: the sample rate field is 32 bits wide, so the
    positive sample rate [2^32] is stored as [0], and so is its byte rate. *)
Lemma sample_rate_field_wraps :
  exists view,
    quantizeAndFrame [] 1 4294967296 = Ok view
    /\ DataView.getUint32 view 24 = Ok 0
    /\ DataView.getUint32 view 28 = Ok 0
    /\ DataView.getUint32 view 24 <> Ok 4294967296.
Proof.
  eexists. split; [vm_compute; reflexivity|].
  repeat apply conj; try (vm_compute; reflexivity).
  vm_compute. discriminate.
Qed.

(** C3, amended: for every sample sequence, channel count in {1, 2} and
    positive sample rate whose byte rate [sampleRate * channels * 2] and
    chunk size [36 + dataBytes] are below [2^32], the first 44 bytes of the
    result are bytes and read back, little-endian, as the header layout:
    "RIFF", [36 + dataBytes], "WAVE", "fmt ", 16, 1, the channel count, the
    sample rate, the byte rate, the block align [channels * 2], 16, "data"
    and [dataBytes]. *)
Theorem header_layout (samples : list number) (ch rate : Z) :
  ch = 1 \/ ch = 2 ->
  0 < rate ->
  rate * ch * 2 < 4294967296 ->
  36 + Z.of_nat (length samples) * 2 < 4294967296 ->
  exists view,
    let dataBytes := Z.of_nat (length samples) * 2 in
    quantizeAndFrame samples ch rate = Ok view
    /\ Forall (fun b => 0 <= b < 256) (take 44 view)
    /\ DataView.getBytes view 0 4 = Ok (asciiCodes "RIFF")
    /\ DataView.getUint32 view 4 = Ok (36 + dataBytes)
    /\ DataView.getBytes view 8 4 = Ok (asciiCodes "WAVE")
    /\ DataView.getBytes view 12 4 = Ok (asciiCodes "fmt ")
    /\ DataView.getUint32 view 16 = Ok 16
    /\ DataView.getUint16 view 20 = Ok 1
    /\ DataView.getUint16 view 22 = Ok ch
    /\ DataView.getUint32 view 24 = Ok rate
    /\ DataView.getUint32 view 28 = Ok (rate * ch * 2)
    /\ DataView.getUint16 view 32 = Ok (ch * 2)
    /\ DataView.getUint16 view 34 = Ok 16
    /\ DataView.getBytes view 36 4 = Ok (asciiCodes "data")
    /\ DataView.getUint32 view 40 = Ok dataBytes.
Proof.
  intros Hch Hrate Hbyterate Hsize.
  eexists. cbv zeta. split; [apply quantizeAndFrame_layout|].
  split; [rewrite take_header; apply header_bytes_are_bytes|].
  pose proof (header_fields (Z.of_nat (length samples)) ch rate
                (flat_map sampleBytes samples)) as H.
  cbv zeta in H.
  destruct H as (H0 & H4 & H8 & H12 & H16 & H20 & H22 & H24 & H28 & H32
                 & H34 & H36 & H40).
  rewrite H0, H4, H8, H12, H16, H20, H22, H24, H28, H32, H34, H36, H40.
  rewrite <- (Z.mul_assoc rate ch 2) in Hbyterate |- *.
  rewrite !Z.mod_small by lia.
  repeat apply conj; reflexivity.
Qed.

Lemma header_layout_witness :
  exists view,
    quantizeAndFrame [of_Z 0; Fin (1 # 2)] 2 48000 = Ok view
    /\ Forall (fun b => 0 <= b < 256) (take 44 view)
    /\ DataView.getBytes view 0 4 = Ok (asciiCodes "RIFF")
    /\ DataView.getUint32 view 4 = Ok (36 + 2 * 2)
    /\ DataView.getBytes view 8 4 = Ok (asciiCodes "WAVE")
    /\ DataView.getBytes view 12 4 = Ok (asciiCodes "fmt ")
    /\ DataView.getUint32 view 16 = Ok 16
    /\ DataView.getUint16 view 20 = Ok 1
    /\ DataView.getUint16 view 22 = Ok 2
    /\ DataView.getUint32 view 24 = Ok 48000
    /\ DataView.getUint32 view 28 = Ok (48000 * 2 * 2)
    /\ DataView.getUint16 view 32 = Ok (2 * 2)
    /\ DataView.getUint16 view 34 = Ok 16
    /\ DataView.getBytes view 36 4 = Ok (asciiCodes "data")
    /\ DataView.getUint32 view 40 = Ok (2 * 2).
Proof.
  apply (header_layout [of_Z 0; Fin (1 # 2)] 2 48000).
  - right. reflexivity.
  - reflexivity.
  - reflexivity.
  - reflexivity.
Defined.

(** C4: for every sample sequence the result has exactly
    [44 + samples.length * 2] bytes; for a mono call the bytes 22-23 read
    back as the channel count 1. *)
Theorem output_length_and_mono_channel_count :
  (forall (samples : list number) (ch rate : Z),
      exists view,
        quantizeAndFrame samples ch rate = Ok view
        /\ DataView.byteLength view = (44 + length samples * 2)%nat)
  /\ (forall (S : list number) (r : Z),
        exists view,
          quantizeAndFrame S 1 r = Ok view
          /\ DataView.byteLength view = (44 + length S * 2)%nat
          /\ DataView.getUint16 view 22 = Ok 1).
Proof.
  split.
  - apply quantizeAndFrame_byteLength.
  - intros S r. eexists. split; [apply quantizeAndFrame_layout|]. split.
    + unfold DataView.byteLength.
      rewrite length_app, headerBytes_length, payload_length. lia.
    + pose proof (header_fields (Z.of_nat (length S)) 1 r
                    (flat_map sampleBytes S)) as H.
      cbv zeta in H. apply H.
Qed.

(** C5: for every sample sequence and every sample of it that is a number,
    the signed 16-bit little-endian value read back at offset [44 + 2i],
    divided by 32767, is within [1/32767] of the sample hard-clamped to
    [-1.0, 1.0]. *)
Theorem round_trip_quantization_bound
  (samples : list number) (ch rate : Z) (i : nat) (s : number) (c : Q) :
  samples !! i = Some s ->
  hardClamp s = Some c ->
  exists view v,
    quantizeAndFrame samples ch rate = Ok view
    /\ DataView.getInt16 view (44 + 2 * i) = Ok v
    /\ (Qabs (pcmValue v - c) < 1 / 32767)%Q.
Proof.
  intros Hi Hc.
  destruct (getInt16_sample samples ch rate i s Hi) as (view & Hview & Hget).
  destruct (sampleInt16_clamped s c Hc) as [Heq _].
  destruct (clamp_hardClamp s c Hc) as [_ Hrange].
  exists view, (sampleInt16 s). repeat apply conj; [assumption..|].
  rewrite Heq. apply truncate_scaled. exact Hrange.
Qed.

Lemma round_trip_quantization_bound_witness :
  exists view v,
    quantizeAndFrame [Fin (1 # 3); Fin (-7 # 5)] 1 48000 = Ok view
    /\ DataView.getInt16 view (44 + 2 * 1) = Ok v
    /\ (Qabs (pcmValue v - (-1)) < 1 / 32767)%Q.
Proof.
  apply (round_trip_quantization_bound
           [Fin (1 # 3); Fin (-7 # 5)] 1 48000 1 (Fin (-7 # 5)) (-1)%Q);
    reflexivity.
Defined.

(** The size fields for [N] samples of silence. *)
Lemma size_fields_silence (N : Z) :
  0 <= N ->
  exists view,
    quantizeAndFrame (Float32Array.make (Z.to_nat N)) 1 48000 = Ok view
    /\ Z.of_nat (DataView.byteLength view) = 44 + N * 2
    /\ DataView.getUint32 view 4 = Ok ((36 + N * 2) mod 4294967296)
    /\ DataView.getUint32 view 40 = Ok ((N * 2) mod 4294967296).
Proof.
  intros HN.
  destruct (size_fields_mod (Float32Array.make (Z.to_nat N)) 1 48000)
    as (view & Hview & Hlen & H4 & H40).
  unfold Float32Array.make in Hlen, H4, H40.
  rewrite length_replicate, Z2Nat.id in Hlen, H4, H40 by assumption.
  exists view. repeat apply conj; assumption.
Qed.

(** C6 as stated fails: for [2^31] samples the payload has [2^32] bytes and
    the result [2^32 + 44], while the 32-bit size fields read back as [36]
    and [0]. *)
Lemma size_fields_wrap :
  exists view,
    quantizeAndFrame (Float32Array.make (Z.to_nat 2147483648)) 1 48000 = Ok view
    /\ Z.of_nat (DataView.byteLength view) = 4294967340
    /\ DataView.getUint32 view 4 = Ok 36
    /\ DataView.getUint32 view 40 = Ok 0.
Proof.
  assert (H : 0 <= 2147483648) by discriminate.
  destruct (size_fields_silence 2147483648 H) as (view & Hview & Hlen & H4 & H40).
  exists view.
  split; [exact Hview|].
  split; [exact Hlen|].
  split; [exact H4 | exact H40].
Qed.

(** C6, amended: whenever the chunk size [36 + dataBytes] is below [2^32],
    the chunk size field at offset 4 is the length of the result minus 8
    and the data size field at offset 40 is the length of the result minus
    44, the byte length of the payload. *)
Theorem declared_sizes_match_payload (samples : list number) (ch rate : Z) :
  36 + Z.of_nat (length samples) * 2 < 4294967296 ->
  exists view,
    quantizeAndFrame samples ch rate = Ok view
    /\ DataView.getUint32 view 4 = Ok (Z.of_nat (DataView.byteLength view) - 8)
    /\ DataView.getUint32 view 40 = Ok (Z.of_nat (DataView.byteLength view) - 44)
    /\ Z.of_nat (DataView.byteLength view) - 44 = Z.of_nat (length samples) * 2.
Proof.
  intros Hsize.
  destruct (size_fields_mod samples ch rate) as (view & Hview & Hlen & H4 & H40).
  exists view. rewrite H4, H40, Hlen, !Z.mod_small by lia.
  repeat apply conj; try assumption; f_equal; lia.
Qed.

Lemma declared_sizes_match_payload_witness :
  exists view,
    quantizeAndFrame [of_Z 1; of_Z 0; of_Z (-1)] 1 48000 = Ok view
    /\ DataView.getUint32 view 4 = Ok (Z.of_nat (DataView.byteLength view) - 8)
    /\ DataView.getUint32 view 40 = Ok (Z.of_nat (DataView.byteLength view) - 44)
    /\ Z.of_nat (DataView.byteLength view) - 44 = Z.of_nat 3 * 2.
Proof.
  apply (declared_sizes_match_payload [of_Z 1; of_Z 0; of_Z (-1)] 1 48000).
  reflexivity.
Defined.

(** C8: the result is a function of the arguments alone, and its bytes
    0-43 depend only on the channel count, the sample rate and the number
    of samples. *)
Theorem header_determinism :
  (forall (s1 s2 : list number) (ch rate : Z),
      length s1 = length s2 ->
      exists v1 v2,
        quantizeAndFrame s1 ch rate = Ok v1
        /\ quantizeAndFrame s2 ch rate = Ok v2
        /\ take 44 v1 = take 44 v2)
  /\ (forall (s1 s2 : list number) (ch1 ch2 rate1 rate2 : Z),
        s1 = s2 -> ch1 = ch2 -> rate1 = rate2 ->
        quantizeAndFrame s1 ch1 rate1 = quantizeAndFrame s2 ch2 rate2).
Proof.
  split.
  - intros s1 s2 ch rate Hlen.
    do 2 eexists. split; [apply quantizeAndFrame_layout|].
    split; [apply quantizeAndFrame_layout|].
    rewrite !take_header, Hlen. reflexivity.
  - intros s1 s2 ch1 ch2 rate1 rate2 -> -> ->. reflexivity.
Qed.

Lemma header_determinism_witness :
  exists v1 v2,
    quantizeAndFrame [of_Z 1; Fin (1 # 4)] 2 44100 = Ok v1
    /\ quantizeAndFrame [NaN; Inf true] 2 44100 = Ok v2
    /\ take 44 v1 = take 44 v2.
Proof.
  apply (proj1 header_determinism [of_Z 1; Fin (1 # 4)] [NaN; Inf true] 2 44100).
  reflexivity.
Defined.

(** C9: [quantizeAndFrame] never throws: the header writes and the write
    of each sample at offset [44 + 2i] fit the buffer of
    [44 + samples.length * 2] bytes, and that buffer is returned. *)
Theorem quantizeAndFrame_total (samples : list number) (ch rate : Z) :
  exists view,
    quantizeAndFrame samples ch rate = Ok view
    /\ (forall e, quantizeAndFrame samples ch rate <> Throw e)
    /\ DataView.byteLength view = (44 + length samples * 2)%nat
    /\ DataView.fits view 0 44 = true
    /\ (forall i, (i < length samples)%nat ->
                  DataView.fits view (44 + 2 * i) 2 = true).
Proof.
  destruct (quantizeAndFrame_byteLength samples ch rate) as (view & Hview & Hlen).
  exists view. unfold DataView.byteLength in Hlen.
  repeat apply conj.
  - exact Hview.
  - intros e. rewrite Hview. discriminate.
  - exact Hlen.
  - unfold DataView.fits. apply Nat.leb_le. lia.
  - intros i Hi. unfold DataView.fits. apply Nat.leb_le. lia.
Qed.

Lemma quantizeAndFrame_total_witness :
  exists view,
    quantizeAndFrame [of_Z 1; NaN] 2 48000 = Ok view
    /\ (forall e, quantizeAndFrame [of_Z 1; NaN] 2 48000 <> Throw e)
    /\ DataView.byteLength view = (44 + 2 * 2)%nat
    /\ DataView.fits view 0 44 = true
    /\ (forall i, (i < 2)%nat -> DataView.fits view (44 + 2 * i) 2 = true).
Proof. exact (quantizeAndFrame_total [of_Z 1; NaN] 2 48000). Defined.

(** ** [interleave] *)

(** The loop of [interleave] after its first [k] iterations. *)
Lemma interleave_loop_prefix (L R result : Float32Array.t) (k : nat) :
  let st := foldl (interleave_step L R) (result, O) (seq 0 k) in
  snd st = (2 * k)%nat
  /\ length (fst st) = length result
  /\ (forall j, (2 * k <= j)%nat -> fst st !! j = result !! j)
  /\ (forall i, (i < k)%nat -> (2 * i < length result)%nat ->
                fst st !! (2 * i)%nat = Some (default NaN (L !! i)))
  /\ (forall i, (i < k)%nat -> (2 * i + 1 < length result)%nat ->
                fst st !! (2 * i + 1)%nat = Some (default NaN (R !! i))).
Proof.
  induction k as [|k IH]; cbv zeta.
  - cbn. repeat apply conj; try reflexivity; intros; lia.
  - rewrite seq_S, foldl_app. cbn [foldl Nat.add].
    cbv zeta in IH.
    destruct (foldl (interleave_step L R) (result, O) (seq 0 k)) as [res index].
    cbn [fst snd] in IH. destruct IH as (Hindex & Hlen & Hframe & Heven & Hodd).
    subst index. unfold interleave_step, Float32Array.set, Float32Array.get.
    cbn [fst snd]. repeat apply conj.
    + lia.
    + now rewrite !length_insert.
    + intros j Hj. rewrite !list_lookup_insert_ne by lia. apply Hframe. lia.
    + intros i Hi Hin. destruct (decide (i = k)) as [->|Hne].
      * rewrite list_lookup_insert_ne by lia.
        apply list_lookup_insert_eq. lia.
      * rewrite !list_lookup_insert_ne by lia. apply Heven; lia.
    + intros i Hi Hin. destruct (decide (i = k)) as [->|Hne].
      * replace (2 * k + 1)%nat with (S (2 * k)) by lia.
        apply list_lookup_insert_eq. rewrite length_insert. lia.
      * rewrite !list_lookup_insert_ne by lia. apply Hodd; lia.
Qed.

Lemma interleave_length (L R : Float32Array.t) :
  length (interleave L R) = (length L + length R)%nat.
Proof.
  unfold interleave, interleave_loop.
  destruct (interleave_loop_prefix L R
              (Float32Array.make (length L + length R)) (length L))
    as (_ & Hlen & _).
  rewrite Hlen. apply length_replicate.
Qed.

(** C2: for [L] and [R] of the same length [n], [interleave(L, R)] has
    length [2n], with [L[i]] at index [2i] and [R[i]] at index [2i + 1]. *)
Theorem interleave_alternates (L R : Float32Array.t) (n : nat) :
  length L = n ->
  length R = n ->
  length (interleave L R) = (2 * n)%nat
  /\ (forall i, (i < n)%nat ->
                interleave L R !! (2 * i)%nat = L !! i
                /\ interleave L R !! (2 * i + 1)%nat = R !! i).
Proof.
  intros HL HR. split; [rewrite interleave_length; lia|].
  intros i Hi. unfold interleave, interleave_loop.
  destruct (interleave_loop_prefix L R
              (Float32Array.make (length L + length R)) (length L))
    as (_ & _ & _ & Heven & Hodd).
  unfold Float32Array.make in Heven, Hodd. rewrite length_replicate in Heven, Hodd.
  destruct (lookup_lt_is_Some_2 L i ltac:(lia)) as [x Hx].
  destruct (lookup_lt_is_Some_2 R i ltac:(lia)) as [y Hy].
  rewrite Heven, Hodd by lia. rewrite Hx, Hy. split; reflexivity.
Qed.

Lemma interleave_alternates_witness :
  length (interleave [of_Z 1; of_Z 2] [of_Z 5; of_Z 6]) = (2 * 2)%nat
  /\ (forall i, (i < 2)%nat ->
                interleave [of_Z 1; of_Z 2] [of_Z 5; of_Z 6] !! (2 * i)%nat
                = [of_Z 1; of_Z 2] !! i
                /\ interleave [of_Z 1; of_Z 2] [of_Z 5; of_Z 6] !! (2 * i + 1)%nat
                   = [of_Z 5; of_Z 6] !! i).
Proof.
  apply (interleave_alternates [of_Z 1; of_Z 2] [of_Z 5; of_Z 6] 2); reflexivity.
Defined.

(** C10: for every [L] and [R], of equal length or not, [interleave(L, R)]
    has length [L.length + R.length]; the loop ends with
    [index = 2 * L.length] and leaves every position from [2 * L.length] on
    as it found it, so that in the result these positions hold the initial
    zero; and [L.length + R.length = 2 * L.length] exactly when
    [L.length = R.length]. *)
Theorem interleave_length_and_written_prefix (L R : Float32Array.t) :
  length (interleave L R) = (length L + length R)%nat
  /\ (forall result : Float32Array.t,
        snd (interleave_loop L R result) = (2 * length L)%nat
        /\ forall j, (2 * length L <= j)%nat ->
                     fst (interleave_loop L R result) !! j = result !! j)
  /\ (forall j, (2 * length L <= j < length L + length R)%nat ->
                interleave L R !! j = Some (of_Z 0))
  /\ ((length L + length R = 2 * length L)%nat <-> length L = length R).
Proof.
  split; [apply interleave_length|]. split; [|split].
  - intros result. unfold interleave_loop.
    destruct (interleave_loop_prefix L R result (length L))
      as (Hindex & _ & Hframe & _).
    split; assumption.
  - intros j [Hlo Hhi]. unfold interleave, interleave_loop.
    destruct (interleave_loop_prefix L R
                (Float32Array.make (length L + length R)) (length L))
      as (_ & _ & Hframe & _).
    rewrite Hframe by assumption.
    apply lookup_replicate_2. assumption.
  - lia.
Qed.

Lemma interleave_length_and_written_prefix_witness :
  length (interleave [of_Z 1] [of_Z 5; of_Z 6; of_Z 7]) = (1 + 3)%nat
  /\ interleave [of_Z 1] [of_Z 5; of_Z 6; of_Z 7] !! 3%nat = Some (of_Z 0).
Proof.
  pose proof (interleave_length_and_written_prefix
                [of_Z 1] [of_Z 5; of_Z 6; of_Z 7]) as (Hlen & _ & Hzero & _).
  split; [exact Hlen|]. apply Hzero. cbn. lia.
Defined.

(** ** [toWavBlob] *)

(** C7: when the concatenated chunks are empty, or are not a valid
    compressed audio container, [toWavBlob] fails with [DecodeError] and
    returns no buffer; in particular for the empty chunk sequence. *)
Theorem decode_error_on_empty_or_invalid
  (codec : list Z -> option AudioBuffer) (audioChunks : list (list Z)) :
  concat audioChunks = [] \/ codec (concat audioChunks) = None ->
  toWavBlob codec audioChunks = Throw DecodeError
  /\ (forall wav, toWavBlob codec audioChunks <> Ok wav)
  /\ toWavBlob codec [] = Throw DecodeError.
Proof.
  intros Hbad.
  assert (Hthrow : toWavBlob codec audioChunks = Throw DecodeError).
  { unfold toWavBlob, decodeAudioData.
    destruct Hbad as [Hempty|Hinvalid].
    - rewrite Hempty. reflexivity.
    - rewrite Hinvalid. destruct (concat audioChunks); reflexivity. }
  repeat apply conj.
  - exact Hthrow.
  - intros wav. rewrite Hthrow. discriminate.
  - reflexivity.
Qed.

Lemma decode_error_on_empty_or_invalid_witness :
  toWavBlob (fun _ => None) [[]; []] = Throw DecodeError
  /\ (forall wav, toWavBlob (fun _ => None) [[]; []] <> Ok wav)
  /\ toWavBlob (fun _ => None) [] = Throw DecodeError.
Proof.
  apply (decode_error_on_empty_or_invalid (fun _ => None) [[]; []]).
  left. reflexivity.
Defined.

(** * Further properties of the code *)

(** ** Single writes *)

Lemma setBytes_fits (view : list Z) (offset : nat) (bytes : list Z) :
  (offset + length bytes <= length view)%nat ->
  DataView.setBytes view offset bytes
  = Ok (take offset view ++ bytes ++ drop (offset + length bytes) view).
Proof.
  intros Hfit.
  pose proof (setBytes_middle (take offset view)
                (take (length bytes) (drop offset view))
                (drop (offset + length bytes) view) bytes) as H.
  assert (Hmid : length (take (length bytes) (drop offset view)) = length bytes)
    by (rewrite length_take_le; [reflexivity|]; rewrite length_drop; lia).
  specialize (H Hmid).
  rewrite <- drop_drop, take_drop, take_drop, length_take_le in H by lia.
  rewrite drop_drop in H. exact H.
Qed.

Lemma setBytes_overflow (view : list Z) (offset : nat) (bytes : list Z) :
  (length view < offset + length bytes)%nat ->
  DataView.setBytes view offset bytes = Throw RangeError.
Proof.
  intros Hlt. unfold DataView.setBytes, DataView.fits.
  destruct (Nat.leb_spec (offset + length bytes) (length view)); [lia|reflexivity].
Qed.

Lemma setBytes_length (view view' : list Z) (offset : nat) (bytes : list Z) :
  DataView.setBytes view offset bytes = Ok view' -> length view' = length view.
Proof.
  intros H.
  destruct (Nat.le_gt_cases (offset + length bytes) (length view)) as [Hfit|Hlt].
  - rewrite setBytes_fits in H by assumption. injection H as <-.
    rewrite !length_app, length_take_le, length_drop by lia. lia.
  - rewrite setBytes_overflow in H by assumption. discriminate.
Qed.

(** ** [writeString] *)







(** ** [encodeWAV] at other bit depths *)

Lemma writeSamples_overflow (samples : list number) (view : list Z) (offset : nat) :
  (offset <= length view)%nat ->
  (length view < offset + 2 * length samples)%nat ->
  writeSamples view offset samples = Throw RangeError.
Proof.
  revert view offset. induction samples as [|s samples IH]; intros view offset Hle Hlt.
  - cbn in Hlt. lia.
  - cbn [writeSamples length] in *. unfold DataView.setInt16.
    fold (sampleInt16 s). fold (sampleBytes s).
    destruct (Nat.le_gt_cases (offset + 2) (length view)) as [Hfit|Hover].
    + destruct (DataView.setBytes view offset (sampleBytes s)) as [view'|e] eqn:Hset.
      * cbn [JS.bind]. apply setBytes_length in Hset. apply IH; lia.
      * rewrite setBytes_fits in Hset by (rewrite sampleBytes_length; lia).
        discriminate.
    + rewrite setBytes_overflow by (rewrite sampleBytes_length; lia). reflexivity.
Qed.




(** X2: at a bit depth of 8 the buffer has one byte per sample while the
    loop still stores two, so [encodeWAV] raises [RangeError] for every
    non-empty sample sequence; for the empty one it returns the 44-byte
    header. *)
Theorem encodeWAV_depth_8 (samples : list number) (ch rate : Z) :
  (samples <> [] -> encodeWAV samples ch rate 8 = Throw RangeError)
  /\ (samples = [] ->
      exists view, encodeWAV samples ch rate 8 = Ok view
                   /\ DataView.byteLength view = 44%nat).
Proof.
  split.
  - intros Hne. unfold encodeWAV. cbv zeta. change (8 / 8) with 1.
    replace (DataView.make (Z.to_nat (44 + Z.of_nat (length samples) * 1)))
      with (replicate 44 0 ++ replicate (length samples) 0)
      by (unfold DataView.make; rewrite <- replicate_add; f_equal; lia).
    cbn.
    change (writeSamples
              (headerBytes (Z.of_nat (length samples)) ch rate 8
               ++ replicate (length samples) 0) 44 samples
            = Throw RangeError).
    apply writeSamples_overflow;
      rewrite length_app, headerBytes_length, length_replicate; [lia|].
    destruct samples; [contradiction|]. cbn [length]. lia.
  - intros ->. eexists. split; [cbn; reflexivity | reflexivity].
Qed.

Lemma encodeWAV_depth_8_witness :
  encodeWAV [of_Z 0; Fin (1 # 2)] 2 44100 8 = Throw RangeError.
Proof.
  apply (proj1 (encodeWAV_depth_8 [of_Z 0; Fin (1 # 2)] 2 44100)). discriminate.
Defined.



(** ** The quantizer *)

Ltac qle_bool_cases :=
  repeat match goal with
         | |- context [Qle_bool ?x ?y] =>
             let H := fresh "Hle" in
             destruct (Qle_bool x y) eqn:H;
             [apply Qle_bool_iff in H
             |assert (~ (x <= y)%Q)
                by (let H' := fresh in intros H'; apply Qle_bool_iff in H';
                    congruence);
              clear H]
         end.

Lemma sampleInt16_Fin (p : Q) :
  sampleInt16 (Fin p)
  = truncate ((if Qle_bool p (-1) then -1
               else if Qle_bool 1 p then 1 else p) * inject_Z 32767).
Proof. exact (proj1 (sampleInt16_clamped (Fin p) _ eq_refl)). Qed.

Lemma truncate_mono (a b : Q) : (a <= b)%Q -> truncate a <= truncate b.
Proof.
  destruct a as [n1 d1], b as [n2 d2]. unfold Qle, truncate. cbn. intros Hle.
  rewrite <- (Z.quot_mul_cancel_r n1 (Z.pos d1) (Z.pos d2)) by lia.
  rewrite <- (Z.quot_mul_cancel_r n2 (Z.pos d2) (Z.pos d1)) by lia.
  rewrite (Z.mul_comm (Z.pos d2) (Z.pos d1)).
  apply Z.quot_le_mono; lia.
Qed.

Lemma truncate_opp (a : Q) : truncate (- a) = - truncate a.
Proof.
  destruct a as [n d]. unfold truncate. cbn. apply Z.quot_opp_l. lia.
Qed.

Lemma truncate_small (a : Q) : (Qabs a < 1)%Q -> truncate a = 0.
Proof.
  destruct a as [n d]. unfold Qlt, truncate. cbn. intros Hlt.
  apply Z.quot_small_iff; lia.
Qed.

(** X4: the quantizer is monotone: of two finite samples of one call, the
    larger is never stored as the smaller 16-bit value. *)
Theorem quantization_monotone
  (samples : list number) (ch rate : Z) (i j : nat) (p q : Q) :
  samples !! i = Some (Fin p) ->
  samples !! j = Some (Fin q) ->
  (p <= q)%Q ->
  exists view vi vj,
    quantizeAndFrame samples ch rate = Ok view
    /\ DataView.getInt16 view (44 + 2 * i) = Ok vi
    /\ DataView.getInt16 view (44 + 2 * j) = Ok vj
    /\ vi <= vj.
Proof.
  intros Hi Hj Hpq.
  destruct (getInt16_sample samples ch rate i _ Hi) as (view & Hview & Hgi).
  destruct (getInt16_sample samples ch rate j _ Hj) as (view' & Hview' & Hgj).
  rewrite Hview in Hview'. injection Hview' as <-.
  exists view, (sampleInt16 (Fin p)), (sampleInt16 (Fin q)).
  repeat apply conj; try assumption.
  rewrite !sampleInt16_Fin. apply truncate_mono.
  apply Qmult_le_compat_r; [|discriminate].
  qle_bool_cases; lra.
Qed.

Lemma quantization_monotone_witness :
  exists view vi vj,
    quantizeAndFrame [Fin (1 # 3); Fin (-1 # 7)] 1 48000 = Ok view
    /\ DataView.getInt16 view (44 + 2 * 1) = Ok vi
    /\ DataView.getInt16 view (44 + 2 * 0) = Ok vj
    /\ vi <= vj.
Proof.
  apply (quantization_monotone [Fin (1 # 3); Fin (-1 # 7)] 1 48000 1 0
           (-1 # 7) (1 # 3)); [reflexivity | reflexivity | discriminate].
Defined.

(** X5: the quantizer is odd: a finite sample and its negation are stored
    as opposite 16-bit values. *)
Theorem quantization_odd
  (samples : list number) (ch rate : Z) (i j : nat) (p : Q) :
  samples !! i = Some (Fin p) ->
  samples !! j = Some (Fin (- p)) ->
  exists view v,
    quantizeAndFrame samples ch rate = Ok view
    /\ DataView.getInt16 view (44 + 2 * i) = Ok v
    /\ DataView.getInt16 view (44 + 2 * j) = Ok (- v).
Proof.
  intros Hi Hj.
  destruct (getInt16_sample samples ch rate i _ Hi) as (view & Hview & Hgi).
  destruct (getInt16_sample samples ch rate j _ Hj) as (view' & Hview' & Hgj).
  rewrite Hview in Hview'. injection Hview' as <-.
  exists view, (sampleInt16 (Fin p)).
  repeat apply conj; try assumption.
  rewrite Hgj. f_equal. rewrite !sampleInt16_Fin.
  qle_bool_cases; try (exfalso; lra); try reflexivity.
  rewrite <- truncate_opp. destruct p as [n d]. unfold truncate. cbn.
  f_equal. lia.
Qed.

Lemma quantization_odd_witness :
  exists view v,
    quantizeAndFrame [Fin (2 # 5); Fin (- (2 # 5))] 2 44100 = Ok view
    /\ DataView.getInt16 view (44 + 2 * 0) = Ok v
    /\ DataView.getInt16 view (44 + 2 * 1) = Ok (- v).
Proof.
  apply (quantization_odd [Fin (2 # 5); Fin (- (2 # 5))] 2 44100 0 1 (2 # 5));
    reflexivity.
Defined.

(** X6: whatever the sample, the stored 16-bit value lies in
    [-32767, 32767], so [-32768] never occurs in the payload; [NaN] is
    stored as 0 and the infinities as 32767 and -32767. *)
Theorem stored_value_range
  (samples : list number) (ch rate : Z) (i : nat) (s : number) :
  samples !! i = Some s ->
  exists view v,
    quantizeAndFrame samples ch rate = Ok view
    /\ DataView.getInt16 view (44 + 2 * i) = Ok v
    /\ -32767 <= v <= 32767
    /\ (s = NaN -> v = 0)
    /\ (s = Inf false -> v = 32767)
    /\ (s = Inf true -> v = -32767).
Proof.
  intros Hi.
  destruct (getInt16_sample samples ch rate i s Hi) as (view & Hview & Hget).
  exists view, (sampleInt16 s). repeat apply conj; try assumption.
  - destruct (hardClamp s) as [c|] eqn:Hc.
    + apply (sampleInt16_clamped s c Hc).
    + destruct s as [|[|]|q]; discriminate.
  - destruct (hardClamp s) as [c|] eqn:Hc.
    + apply (sampleInt16_clamped s c Hc).
    + destruct s as [|[|]|q]; discriminate.
  - intros ->. reflexivity.
  - intros ->. reflexivity.
  - intros ->. reflexivity.
Qed.

Lemma stored_value_range_witness :
  exists view v,
    quantizeAndFrame [NaN; Inf true] 1 48000 = Ok view
    /\ DataView.getInt16 view (44 + 2 * 1) = Ok v
    /\ -32767 <= v <= 32767
    /\ (Inf true = NaN -> v = 0)
    /\ (Inf true = Inf false -> v = 32767)
    /\ (Inf true = Inf true -> v = -32767).
Proof.
  apply (stored_value_range [NaN; Inf true] 1 48000 1 (Inf true)). reflexivity.
Defined.

(** X7: truncation leaves a dead zone: every finite sample of magnitude
    below [1/32767] is stored as 0. *)
Theorem quantization_dead_zone
  (samples : list number) (ch rate : Z) (i : nat) (p : Q) :
  samples !! i = Some (Fin p) ->
  (Qabs p < 1 / 32767)%Q ->
  exists view,
    quantizeAndFrame samples ch rate = Ok view
    /\ DataView.getInt16 view (44 + 2 * i) = Ok 0.
Proof.
  intros Hi Hsmall.
  destruct (getInt16_sample samples ch rate i _ Hi) as (view & Hview & Hget).
  exists view. split; [assumption|]. rewrite Hget. f_equal.
  rewrite sampleInt16_Fin.
  apply Qabs_Qlt_condition in Hsmall. destruct Hsmall as [Hlo Hhi].
  change (1 / 32767)%Q with (1 # 32767)%Q in Hlo, Hhi.
  qle_bool_cases; try (exfalso; lra).
  apply truncate_small. apply Qabs_Qlt_condition.
  change (inject_Z 32767) with 32767%Q. split; lra.
Qed.

Lemma quantization_dead_zone_witness :
  exists view,
    quantizeAndFrame [Fin (-1 # 40000)] 1 48000 = Ok view
    /\ DataView.getInt16 view (44 + 2 * 0) = Ok 0.
Proof.
  apply (quantization_dead_zone [Fin (-1 # 40000)] 1 48000 0 (-1 # 40000));
    reflexivity.
Defined.

(** ** [interleave] on channels of any length *)

(** X8: position by position: the left sample [i] is at [2i] when that
    slot exists and is dropped otherwise; the slot [2i + 1] holds the
    right sample [i], or [NaN] when the right channel has none. *)
Theorem interleave_pointwise (L R : list number) (i : nat) :
  (i < length L)%nat ->
  ((2 * i < length L + length R)%nat -> interleave L R !! (2 * i)%nat = L !! i)
  /\ ((length L + length R <= 2 * i)%nat -> interleave L R !! (2 * i)%nat = None)
  /\ ((2 * i + 1 < length L + length R)%nat -> (i < length R)%nat ->
      interleave L R !! (2 * i + 1)%nat = R !! i)
  /\ ((2 * i + 1 < length L + length R)%nat -> (length R <= i)%nat ->
      interleave L R !! (2 * i + 1)%nat = Some NaN).
Proof.
  intros Hi.
  pose proof (interleave_length L R) as Hlen.
  unfold interleave, interleave_loop in *.
  destruct (interleave_loop_prefix L R
              (Float32Array.make (length L + length R)) (length L))
    as (_ & _ & _ & Heven & Hodd).
  unfold Float32Array.make in Heven, Hodd. rewrite length_replicate in Heven, Hodd.
  repeat apply conj.
  - intros Hslot. rewrite Heven by lia.
    destruct (lookup_lt_is_Some_2 L i Hi) as [x ->]. reflexivity.
  - intros Hslot. apply lookup_ge_None_2. lia.
  - intros Hslot HR. rewrite Hodd by lia.
    destruct (lookup_lt_is_Some_2 R i HR) as [y ->]. reflexivity.
  - intros Hslot HR. rewrite Hodd by lia.
    rewrite (lookup_ge_None_2 R i HR). reflexivity.
Qed.

Lemma interleave_pointwise_witness :
  interleave [of_Z 1; of_Z 2; of_Z 3] [of_Z 9] !! (2 * 1 + 1)%nat = Some NaN.
Proof.
  apply (interleave_pointwise [of_Z 1; of_Z 2; of_Z 3] [of_Z 9] 1); cbn; lia.
Defined.

(** ** [toWavBlob] end to end *)

Lemma getInt16_quantizeAndFrame
  (samples : list number) (ch rate : Z) (i : nat) (s : number) :
  samples !! i = Some s ->
  DataView.getInt16
    (headerBytes (Z.of_nat (length samples)) ch rate 16
     ++ flat_map sampleBytes samples) (44 + 2 * i)
  = Ok (sampleInt16 s).
Proof. intros Hi. exact (getInt16_payload samples _ i s Hi). Qed.

(** X9: for a decoded buffer with two channels of [n] samples, the result
    has [44 + 4n] bytes, declares 2 channels and a block align of 4, and
    frame [i] holds the left sample at [44 + 4i] and the right one at
    [44 + 4i + 2]. *)
Theorem toWavBlob_stereo
  (codec : list Z -> option AudioBuffer) (audioChunks : list (list Z))
  (audioBuffer : AudioBuffer) (L R : list number) :
  decodeAudioData codec (concat audioChunks) = Ok audioBuffer ->
  channels audioBuffer = [L; R] ->
  length L = length R ->
  exists wav,
    toWavBlob codec audioChunks = Ok wav
    /\ DataView.byteLength wav = (44 + 4 * length L)%nat
    /\ DataView.getUint16 wav 22 = Ok 2
    /\ DataView.getUint16 wav 32 = Ok 4
    /\ forall i l r,
         L !! i = Some l -> R !! i = Some r ->
         DataView.getInt16 wav (44 + 4 * i) = Ok (sampleInt16 l)
         /\ DataView.getInt16 wav (44 + 4 * i + 2) = Ok (sampleInt16 r).
Proof.
  intros Hdecode Hch Hlen.
  unfold toWavBlob. cbv zeta. rewrite Hdecode. cbn [JS.bind].
  unfold numberOfChannels, getChannelData. rewrite Hch.
  cbn [length lookup list_lookup JS.bind].
  change (Z.of_nat 2) with 2. change (2 =? 2) with true. cbn [JS.bind].
  fold (quantizeAndFrame (interleave L R) 2 (sampleRate audioBuffer)).
  rewrite quantizeAndFrame_layout. cbn [JS.bind].
  eexists. split; [reflexivity|].
  destruct (interleave_alternates L R (length L) eq_refl (eq_sym Hlen))
    as [Hilen Hi].
  pose proof (header_fields (Z.of_nat (length (interleave L R))) 2
                (sampleRate audioBuffer)
                (flat_map sampleBytes (interleave L R))) as H.
  cbv zeta in H.
  destruct H as (_ & _ & _ & _ & _ & _ & H22 & _ & _ & H32 & _).
  repeat apply conj.
  - unfold DataView.byteLength.
    rewrite length_app, headerBytes_length, payload_length, Hilen. lia.
  - exact H22.
  - exact H32.
  - intros i l r Hl Hr.
    assert (Hlt : (i < length L)%nat) by (apply lookup_lt_Some in Hl; exact Hl).
    destruct (Hi i Hlt) as [Heven Hodd]. split.
    + replace (44 + 4 * i)%nat with (44 + 2 * (2 * i))%nat by lia.
      apply getInt16_quantizeAndFrame. now rewrite Heven.
    + replace (44 + 4 * i + 2)%nat with (44 + 2 * (2 * i + 1))%nat by lia.
      apply getInt16_quantizeAndFrame. now rewrite Hodd.
Qed.

Lemma toWavBlob_stereo_witness :
  exists wav,
    toWavBlob (fun _ => Some {| sampleRate := 48000;
                                channels := [[of_Z 1]; [of_Z (-1)]] |}) [[26]]
    = Ok wav
    /\ DataView.byteLength wav = (44 + 4 * 1)%nat
    /\ DataView.getUint16 wav 22 = Ok 2
    /\ DataView.getUint16 wav 32 = Ok 4
    /\ forall i l r,
         [of_Z 1] !! i = Some l -> [of_Z (-1)] !! i = Some r ->
         DataView.getInt16 wav (44 + 4 * i) = Ok (sampleInt16 l)
         /\ DataView.getInt16 wav (44 + 4 * i + 2) = Ok (sampleInt16 r).
Proof.
  apply (toWavBlob_stereo _ [[26]]
           {| sampleRate := 48000; channels := [[of_Z 1]; [of_Z (-1)]] |}
           [of_Z 1] [of_Z (-1)]); reflexivity.
Defined.

(** X10: when the decoded buffer does not have exactly two channels, only
    channel 0 is encoded: the result has [44 + 2n] bytes for its [n]
    samples, with sample [i] at [44 + 2i], while the header declares the
    buffer's channel count [k] and a block align of [2k]. *)
Theorem toWavBlob_first_channel_only
  (codec : list Z -> option AudioBuffer) (audioChunks : list (list Z))
  (audioBuffer : AudioBuffer) (S : list number) (others : list (list number)) :
  decodeAudioData codec (concat audioChunks) = Ok audioBuffer ->
  channels audioBuffer = S :: others ->
  length others <> 1%nat ->
  Z.of_nat (length others) < 65535 ->
  exists wav,
    toWavBlob codec audioChunks = Ok wav
    /\ toWavBlob codec audioChunks
       = quantizeAndFrame S (1 + Z.of_nat (length others)) (sampleRate audioBuffer)
    /\ DataView.byteLength wav = (44 + 2 * length S)%nat
    /\ DataView.getUint16 wav 22 = Ok (1 + Z.of_nat (length others))
    /\ DataView.getUint16 wav 32
       = Ok (((1 + Z.of_nat (length others)) * 2) mod 65536)
    /\ forall i s, S !! i = Some s ->
                   DataView.getInt16 wav (44 + 2 * i) = Ok (sampleInt16 s).
Proof.
  intros Hdecode Hch Hne Hsmall.
  assert (Hwav : toWavBlob codec audioChunks
                 = quantizeAndFrame S (1 + Z.of_nat (length others))
                     (sampleRate audioBuffer)).
  { unfold toWavBlob. cbv zeta. rewrite Hdecode. cbn [JS.bind].
    unfold numberOfChannels, getChannelData. rewrite Hch.
    cbn [length lookup list_lookup].
    replace (Z.of_nat (Datatypes.S (length others)))
      with (1 + Z.of_nat (length others)) by lia.
    destruct (Z.eqb_spec (1 + Z.of_nat (length others)) 2) as [Heq|_]; [lia|].
    cbn [JS.bind]. unfold quantizeAndFrame.
    destruct (encodeWAV S (1 + Z.of_nat (length others))
                (sampleRate audioBuffer) 16); reflexivity. }
  rewrite Hwav, quantizeAndFrame_layout.
  eexists. split; [reflexivity|]. split; [reflexivity|].
  pose proof (header_fields (Z.of_nat (length S)) (1 + Z.of_nat (length others))
                (sampleRate audioBuffer) (flat_map sampleBytes S)) as H.
  cbv zeta in H.
  destruct H as (_ & _ & _ & _ & _ & _ & H22 & _ & _ & H32 & _).
  repeat apply conj.
  - unfold DataView.byteLength.
    rewrite length_app, headerBytes_length, payload_length. lia.
  - rewrite H22. f_equal. apply Z.mod_small. lia.
  - exact H32.
  - intros i s Hi. now apply getInt16_quantizeAndFrame.
Qed.

Lemma toWavBlob_first_channel_only_witness :
  exists wav,
    toWavBlob (fun _ => Some {| sampleRate := 48000;
                                channels := [[of_Z 1]; [NaN]; [of_Z 0]] |}) [[26]]
    = Ok wav
    /\ toWavBlob (fun _ => Some {| sampleRate := 48000;
                                   channels := [[of_Z 1]; [NaN]; [of_Z 0]] |}) [[26]]
       = quantizeAndFrame [of_Z 1] (1 + Z.of_nat 2) 48000
    /\ DataView.byteLength wav = (44 + 2 * 1)%nat
    /\ DataView.getUint16 wav 22 = Ok (1 + Z.of_nat 2)
    /\ DataView.getUint16 wav 32 = Ok (((1 + Z.of_nat 2) * 2) mod 65536)
    /\ forall i s, [of_Z 1] !! i = Some s ->
                   DataView.getInt16 wav (44 + 2 * i) = Ok (sampleInt16 s).
Proof.
  apply (toWavBlob_first_channel_only _ [[26]]
           {| sampleRate := 48000; channels := [[of_Z 1]; [NaN]; [of_Z 0]] |}
           [of_Z 1] [[NaN]; [of_Z 0]]);
    [reflexivity | reflexivity | discriminate | cbn; lia].
Defined.

(** X11: provided the decoder only yields buffers that have a channel,
    [toWavBlob] fails exactly when the content is empty or is not a valid
    container, and then with [DecodeError]: the encoder adds no failure of
    its own. *)
Theorem toWavBlob_fails_only_on_decode
  (codec : list Z -> option AudioBuffer) (audioChunks : list (list Z)) (e : exn) :
  (forall bytes audioBuffer,
      codec bytes = Some audioBuffer -> channels audioBuffer <> []) ->
  toWavBlob codec audioChunks = Throw e ->
  e = DecodeError
  /\ (concat audioChunks = [] \/ codec (concat audioChunks) = None).
Proof.
  intros Hchannel. unfold toWavBlob, decodeAudioData. cbv zeta.
  destruct (concat audioChunks) as [|b bytes] eqn:Hbytes.
  - cbn. intros [= <-]. auto.
  - destruct (codec (b :: bytes)) as [audioBuffer|] eqn:Hcodec.
    + specialize (Hchannel _ _ Hcodec). cbn [JS.bind].
      unfold numberOfChannels, getChannelData.
      destruct (channels audioBuffer) as [|S others]; [contradiction|].
      cbn [length lookup list_lookup].
      destruct (Z.eqb_spec (Z.of_nat (Datatypes.S (length others))) 2) as [Hk|Hk].
      * destruct others as [|R others]; [cbn in Hk; lia|].
        cbn [lookup list_lookup JS.bind].
        match goal with
        | |- context [encodeWAV ?x ?k ?r 16] =>
            pose proof (quantizeAndFrame_layout x k r) as Hq
        end.
        unfold quantizeAndFrame in Hq. rewrite Hq. discriminate.
      * cbn [JS.bind].
        match goal with
        | |- context [encodeWAV ?x ?k ?r 16] =>
            pose proof (quantizeAndFrame_layout x k r) as Hq
        end.
        unfold quantizeAndFrame in Hq. rewrite Hq. discriminate.
    + cbn. intros [= <-]. auto.
Qed.

Lemma toWavBlob_fails_only_on_decode_witness :
  DecodeError = DecodeError
  /\ (concat [[1; 2]; [3]] = []
      \/ (fun _ : list Z => @None AudioBuffer) (concat [[1; 2]; [3]]) = None).
Proof.
  apply (toWavBlob_fails_only_on_decode (fun _ => None) [[1; 2]; [3]] DecodeError).
  - discriminate.
  - reflexivity.
Defined.


(** ** The recording session *)

Ltac session_unfold :=
  unfold stopRecording, onstop, Session.bind, Session.of_result,
    Session.try_catch, Session.await, Session.emit, Session.setLoading,
    Session.setIsRecording, Session.resolve, Session.ret, Session.throw,
    Session.return_.

(** X12: when the analysis answers with JSON whose [text] is falsy, the
    handler returns early: the component stays in [loading], the promise
    is not resolved, and no speech request or playback takes place. *)
Theorem falsy_text_leaves_processing
  (env : Session.environment) (audioChunks : list (list Z)) (st : Session.state)
  (wav : list Z) (backend : Session.Response) (text : Session.value) :
  Session.isRecording st = true ->
  toWavBlob (Session.codec env) audioChunks = Ok wav ->
  Session.analyze env (Session.imageBlob env) wav = Some backend ->
  Session.json backend = Some (Session.JsonWith text) ->
  Session.truthy text = false ->
  stopRecording env audioChunks st
  = (Session.Return,
     {| Session.isRecording := false;
        Session.loading := true;
        Session.resolved := Session.resolved st;
        Session.trace :=
          Session.trace st
          ++ [Session.FetchAnalyze (Session.imageBlob env) wav;
              Session.ConsoleLog; Session.ConsoleError] |}).
Proof.
  intros Hrec Hwav Hanalyze Hjson Hfalsy. session_unfold.
  rewrite Hrec, Hwav. cbn. rewrite Hanalyze, Hjson. cbn. rewrite Hfalsy. cbn.
  now rewrite <- !app_assoc.
Qed.

(** X13: when the speech service answers with a status that is not [ok],
    the handler reads the body, logs it and returns early: the component
    stays in [loading], the promise is not resolved and nothing is
    played. *)
Theorem speech_error_leaves_processing
  (env : Session.environment) (audioChunks : list (list Z)) (st : Session.state)
  (wav : list Z) (backend groqRes : Session.Response) (text : Session.value)
  (body : string) :
  Session.isRecording st = true ->
  toWavBlob (Session.codec env) audioChunks = Ok wav ->
  Session.analyze env (Session.imageBlob env) wav = Some backend ->
  Session.json backend = Some (Session.JsonWith text) ->
  Session.truthy text = true ->
  Session.speech env text = Some groqRes ->
  Session.ok groqRes = false ->
  Session.text groqRes = Some body ->
  stopRecording env audioChunks st
  = (Session.Return,
     {| Session.isRecording := false;
        Session.loading := true;
        Session.resolved := Session.resolved st;
        Session.trace :=
          Session.trace st
          ++ [Session.FetchAnalyze (Session.imageBlob env) wav;
              Session.ConsoleLog; Session.ConsoleLog;
              Session.FetchSpeech text; Session.ConsoleError] |}).
Proof.
  intros Hrec Hwav Hanalyze Hjson Htruthy Hspeech Hok Hbody. session_unfold.
  rewrite Hrec, Hwav. cbn. rewrite Hanalyze, Hjson. cbn. rewrite Htruthy. cbn.
  rewrite Hspeech. cbn. rewrite Hok. cbn. rewrite Hbody. cbn.
  now rewrite <- !app_assoc.
Qed.

(** X15: when both services answer and the speech body can be read, the
    recording is uploaded once, the analysis text is what is sent to the
    speech service, its audio is played, and the handler ends out of
    [loading] with the promise resolved. *)
Theorem successful_session
  (env : Session.environment) (audioChunks : list (list Z)) (st : Session.state)
  (wav audio : list Z) (backend groqRes : Session.Response) (text : Session.value) :
  Session.isRecording st = true ->
  toWavBlob (Session.codec env) audioChunks = Ok wav ->
  Session.analyze env (Session.imageBlob env) wav = Some backend ->
  Session.json backend = Some (Session.JsonWith text) ->
  Session.truthy text = true ->
  Session.speech env text = Some groqRes ->
  Session.ok groqRes = true ->
  Session.arrayBuffer groqRes = Some audio ->
  stopRecording env audioChunks st
  = (Session.Normal tt,
     {| Session.isRecording := false;
        Session.loading := false;
        Session.resolved := true;
        Session.trace :=
          Session.trace st
          ++ [Session.FetchAnalyze (Session.imageBlob env) wav;
              Session.ConsoleLog; Session.ConsoleLog;
              Session.FetchSpeech text; Session.PlayAudio audio] |}).
Proof.
  intros Hrec Hwav Hanalyze Hjson Htruthy Hspeech Hok Haudio. session_unfold.
  rewrite Hrec, Hwav. cbn. rewrite Hanalyze, Hjson. cbn. rewrite Htruthy. cbn.
  rewrite Hspeech. cbn. rewrite Hok. cbn. rewrite Haudio. cbn.
  now rewrite <- !app_assoc.
Qed.

Lemma falsy_text_leaves_processing_witness :
  stopRecording (SessionExample.env (Session.VString "") true) [[26]]
    SessionExample.recording
  = (Session.Return,
     {| Session.isRecording := false;
        Session.loading := true;
        Session.resolved := false;
        Session.trace :=
          [] ++ [Session.FetchAnalyze [255; 216] SessionExample.wav;
                 Session.ConsoleLog; Session.ConsoleError] |}).
Proof.
  apply (falsy_text_leaves_processing
           (SessionExample.env (Session.VString "") true) [[26]]
           SessionExample.recording SessionExample.wav
           (SessionExample.answer (Session.VString "")) (Session.VString ""));
    reflexivity.
Defined.

Lemma speech_error_leaves_processing_witness :
  stopRecording (SessionExample.env (Session.VString "a cat") false) [[26]]
    SessionExample.recording
  = (Session.Return,
     {| Session.isRecording := false;
        Session.loading := true;
        Session.resolved := false;
        Session.trace :=
          [] ++ [Session.FetchAnalyze [255; 216] SessionExample.wav;
                 Session.ConsoleLog; Session.ConsoleLog;
                 Session.FetchSpeech (Session.VString "a cat");
                 Session.ConsoleError] |}).
Proof.
  apply (speech_error_leaves_processing
           (SessionExample.env (Session.VString "a cat") false) [[26]]
           SessionExample.recording SessionExample.wav
           (SessionExample.answer (Session.VString "a cat"))
           (SessionExample.speech_answer false) (Session.VString "a cat")
           "quota"%string);
    reflexivity.
Defined.

Lemma successful_session_witness :
  stopRecording (SessionExample.env (Session.VString "a cat") true) [[26]]
    SessionExample.recording
  = (Session.Normal tt,
     {| Session.isRecording := false;
        Session.loading := false;
        Session.resolved := true;
        Session.trace :=
          [] ++ [Session.FetchAnalyze [255; 216] SessionExample.wav;
                 Session.ConsoleLog; Session.ConsoleLog;
                 Session.FetchSpeech (Session.VString "a cat");
                 Session.PlayAudio [82; 73]] |}).
Proof.
  apply (successful_session
           (SessionExample.env (Session.VString "a cat") true) [[26]]
           SessionExample.recording SessionExample.wav [82; 73]
           (SessionExample.answer (Session.VString "a cat"))
           (SessionExample.speech_answer true) (Session.VString "a cat"));
    reflexivity.
Defined.

Ltac session_cases env :=
  repeat (cbn;
          match goal with
          | |- context [Session.analyze env ?i ?w] =>
              destruct (Session.analyze env i w) eqn:?
          | |- context [Session.json ?r] =>
              destruct (Session.json r) as [[|?]|] eqn:?
          | |- context [Session.truthy ?t] =>
              destruct (Session.truthy t) eqn:?
          | |- context [Session.speech env ?t] =>
              destruct (Session.speech env t) eqn:?
          | |- context [Session.ok ?g] =>
              destruct (Session.ok g) eqn:?
          | |- context [Session.arrayBuffer ?g] =>
              destruct (Session.arrayBuffer g) eqn:?
          | |- context [Session.text ?g] =>
              destruct (Session.text g) eqn:?
          end).

(** X14: how [stopRecording] can end while recording.  If the handler runs
    to its end, [loading] is false and the promise is resolved; if it
    returns early, [loading] is left true and the promise is never
    resolved; if it throws, the error is the one of [toWavBlob] and neither
    [loading], the promise nor the outside has been touched. *)
Theorem stopRecording_outcomes
  (env : Session.environment) (audioChunks : list (list Z))
  (st st' : Session.state) (c : Session.completion unit) :
  Session.isRecording st = true ->
  stopRecording env audioChunks st = (c, st') ->
  Session.isRecording st' = false
  /\ (c = Session.Normal tt ->
      Session.loading st' = false /\ Session.resolved st' = true)
  /\ (c = Session.Return ->
      Session.loading st' = true /\ Session.resolved st' = Session.resolved st)
  /\ (forall e, c = Session.Throws e ->
        (exists x, e = Session.EncoderError x
                   /\ toWavBlob (Session.codec env) audioChunks = Throw x)
        /\ Session.loading st' = Session.loading st
        /\ Session.resolved st' = Session.resolved st
        /\ Session.trace st' = Session.trace st).
Proof.
  intros Hrec. session_unfold. rewrite Hrec. cbn.
  destruct (toWavBlob (Session.codec env) audioChunks) as [wav|x] eqn:Hwav.
  - session_cases env; intros H; injection H as <- <-; cbn;
      repeat apply conj; intros; try discriminate;
      repeat apply conj; reflexivity.
  - cbn. intros [= <- <-]. cbn. repeat apply conj; try discriminate; try reflexivity.
    intros e [= <-]. repeat apply conj; try reflexivity. now exists x.
Qed.

Lemma stopRecording_outcomes_witness :
  Session.isRecording SessionExample.stuck = false
  /\ (@Session.Return unit = Session.Normal tt ->
      Session.loading SessionExample.stuck = false
      /\ Session.resolved SessionExample.stuck = true)
  /\ (@Session.Return unit = Session.Return ->
      Session.loading SessionExample.stuck = true
      /\ Session.resolved SessionExample.stuck
         = Session.resolved SessionExample.recording)
  /\ (forall e, @Session.Return unit = Session.Throws e ->
        (exists x, e = Session.EncoderError x
                   /\ toWavBlob
                        (Session.codec (SessionExample.env Session.VUndefined true))
                        [[26]] = Throw x)
        /\ Session.loading SessionExample.stuck
           = Session.loading SessionExample.recording
        /\ Session.resolved SessionExample.stuck
           = Session.resolved SessionExample.recording
        /\ Session.trace SessionExample.stuck
           = Session.trace SessionExample.recording).
Proof.
  apply (stopRecording_outcomes (SessionExample.env Session.VUndefined true)
           [[26]] SessionExample.recording); reflexivity.
Defined.

(** X16: audio is played only after a complete exchange: the recording was
    encoded, the analysis answered with a truthy [text], the speech
    service answered [ok] to that text, and what is played is the body of
    that answer. *)
Theorem playback_only_after_success
  (env : Session.environment) (audioChunks : list (list Z))
  (st st' : Session.state) (c : Session.completion unit) (audio : list Z) :
  Session.isRecording st = true ->
  stopRecording env audioChunks st = (c, st') ->
  In (Session.PlayAudio audio) (Session.trace st') ->
  ~ In (Session.PlayAudio audio) (Session.trace st) ->
  exists wav backend text groqRes,
    toWavBlob (Session.codec env) audioChunks = Ok wav
    /\ Session.analyze env (Session.imageBlob env) wav = Some backend
    /\ Session.json backend = Some (Session.JsonWith text)
    /\ Session.truthy text = true
    /\ Session.speech env text = Some groqRes
    /\ Session.ok groqRes = true
    /\ Session.arrayBuffer groqRes = Some audio.
Proof.
  intros Hrec Hstop Hin Hnot. revert Hstop.
  session_unfold. rewrite Hrec. cbn.
  destruct (toWavBlob (Session.codec env) audioChunks) as [wav|x] eqn:Hwav.
  - session_cases env; intros H; injection H as <- <-; cbn in Hin;
      rewrite ?in_app_iff in Hin; cbn [In] in Hin;
      try (exfalso; intuition discriminate).
    assert (Heq : l = audio) by (intuition congruence). subst l.
    eauto 12.
  - cbn. intros H. injection H as <- <-. contradiction.
Qed.

Lemma playback_only_after_success_witness :
  exists wav backend text groqRes,
    toWavBlob (Session.codec (SessionExample.env (Session.VString "a cat") true))
      [[26]] = Ok wav
    /\ Session.analyze (SessionExample.env (Session.VString "a cat") true)
         (Session.imageBlob (SessionExample.env (Session.VString "a cat") true))
         wav = Some backend
    /\ Session.json backend = Some (Session.JsonWith text)
    /\ Session.truthy text = true
    /\ Session.speech (SessionExample.env (Session.VString "a cat") true) text
       = Some groqRes
    /\ Session.ok groqRes = true
    /\ Session.arrayBuffer groqRes = Some [82; 73].
Proof.
  apply (playback_only_after_success
           (SessionExample.env (Session.VString "a cat") true) [[26]]
           SessionExample.recording SessionExample.played (Session.Normal tt)
           [82; 73]).
  - reflexivity.
  - reflexivity.
  - cbn. auto 10.
  - cbn. auto.
Defined.

(** X17: while recording, [stopRecording] leaves the component in
    [loading] with an unresolved promise exactly in two cases: the
    analysis answered with JSON whose [text] is falsy, or the speech
    service answered with a status that is not [ok] and a readable
    body. *)
Theorem early_return_iff
  (env : Session.environment) (audioChunks : list (list Z)) (st : Session.state) :
  Session.isRecording st = true ->
  fst (stopRecording env audioChunks st) = Session.Return
  <-> exists wav backend text,
        toWavBlob (Session.codec env) audioChunks = Ok wav
        /\ Session.analyze env (Session.imageBlob env) wav = Some backend
        /\ Session.json backend = Some (Session.JsonWith text)
        /\ (Session.truthy text = false
            \/ exists groqRes body,
                 Session.speech env text = Some groqRes
                 /\ Session.ok groqRes = false
                 /\ Session.text groqRes = Some body).
Proof.
  intros Hrec. session_unfold. rewrite Hrec. cbn. split.
  - destruct (toWavBlob (Session.codec env) audioChunks) as [wav|x] eqn:Hwav;
      [|cbn; discriminate].
    session_cases env; try discriminate; intros _.
    + eauto 12.
    + eauto 12.
  - intros (wav & backend & text & Hwav & Ha & Hj & Hcase).
    rewrite Hwav. cbn. rewrite Ha. cbn. rewrite Hj. cbn.
    destruct Hcase as [Hfalsy|(groqRes & body & Hs & Hok & Hbody)].
    + rewrite Hfalsy. reflexivity.
    + destruct (Session.truthy text); [|reflexivity].
      cbn. rewrite Hs. cbn. rewrite Hok. cbn. rewrite Hbody. reflexivity.
Qed.

Lemma early_return_iff_witness :
  fst (stopRecording (SessionExample.env Session.VNull true) [[26]]
         SessionExample.recording) = Session.Return
  <-> exists wav backend text,
        toWavBlob (Session.codec (SessionExample.env Session.VNull true)) [[26]]
        = Ok wav
        /\ Session.analyze (SessionExample.env Session.VNull true)
             (Session.imageBlob (SessionExample.env Session.VNull true)) wav
           = Some backend
        /\ Session.json backend = Some (Session.JsonWith text)
        /\ (Session.truthy text = false
            \/ exists groqRes body,
                 Session.speech (SessionExample.env Session.VNull true) text
                 = Some groqRes
                 /\ Session.ok groqRes = false
                 /\ Session.text groqRes = Some body).
Proof.
  apply (early_return_iff (SessionExample.env Session.VNull true) [[26]]
           SessionExample.recording). reflexivity.
Defined.

(** ** The header for any arguments *)

